(** * Codat CLI: the paginated resource client, its query builder, its error
      reporting and the output renderer

    A shallow embedding of [src/lib/api.js] (createClient, handleApiError,
    get, getAllPages, buildQuery), [src/lib/auth.js] (requireAuth,
    validateApiKeyFormat), [src/lib/config.js] (getApiKey, setApiKey,
    getBaseUrl, getOutputFormat, setOutputFormat, isConfigured, clearConfig),
    [src/lib/output.js] (formatOutput, outputJson, outputCompact, outputTable
    and their helpers, success, error, info), [src/commands/auth.js] (login,
    set-key, logout, maskApiKey) and [src/commands/invoices.js] (get).

    Conventions of the embedding.
    - A JavaScript value is a [value]: undefined, null, a boolean, a number, a
      string, an array or a plain object.  Numbers are the integers (the
      numbers whose [String(n)] is their plain decimal numeral); fractional
      amounts are outside the model.  A string is a sequence of 8-bit
      characters.  An object is the list of its own enumerable properties in
      enumeration order; the engine's rule that lists integer-like names
      first is not modelled, so a property list stands for an object whose
      names were defined in that order.  Inherited members (methods of the
      prototypes) are not modelled: reading one gives [VUndefined].
    - [console.log], [console.error], the [ora] spinner and [process.exit] act
      on an explicit state; [chalk] and the [table] package are kept symbolic.
    - The HTTP provider is a transition function on an arbitrary world. *)

From Stdlib Require Import String Ascii ZArith List Bool Lia Arith.
From Stdlib Require Import DecimalString DecimalPos DecimalZ.
Import ListNotations.
Open Scope string_scope.
Open Scope Z_scope.

(** ** JavaScript values *)

Module Js.

#[local] Unset Elimination Schemes.
Inductive value : Type :=
| VUndefined
| VNull
| VBool (b : bool)
| VNum (n : Z)
| VStr (s : string)
| VArr (items : list value)
| VObj (props : list (string * value)).
#[local] Set Elimination Schemes.

(** Induction over values that reaches the elements of arrays and the
    property values of objects. *)
Section value_induction.
Variable P : value -> Prop.
Hypothesis Hundef : P VUndefined.
Hypothesis Hnull : P VNull.
Hypothesis Hbool : forall b, P (VBool b).
Hypothesis Hnum : forall n, P (VNum n).
Hypothesis Hstr : forall s, P (VStr s).
Hypothesis Harr : forall items, Forall P items -> P (VArr items).
Hypothesis Hobj : forall props, Forall (fun kv => P (snd kv)) props -> P (VObj props).

Fixpoint value_ind' (v : value) : P v :=
  match v with
  | VUndefined => Hundef
  | VNull => Hnull
  | VBool b => Hbool b
  | VNum n => Hnum n
  | VStr s => Hstr s
  | VArr items =>
      Harr items
        ((fix all (l : list value) : Forall P l :=
            match l with
            | [] => Forall_nil P
            | x :: r => Forall_cons x (value_ind' x) (all r)
            end) items)
  | VObj props =>
      Hobj props
        ((fix all (l : list (string * value)) : Forall (fun kv => P (snd kv)) l :=
            match l with
            | [] => Forall_nil _
            | kv :: r => Forall_cons kv (value_ind' (snd kv)) (all r)
            end) props)
  end.
End value_induction.

(** The double quote character, and a one-character string. *)
Definition dquote : string := String "034"%char "".
Definition str1 (c : ascii) : string := String c "".

(** [String(n)] for a number. *)
Definition number_to_string (n : Z) : string :=
  NilZero.string_of_int (Z.to_int n).

(** [typeof v === 'string'], [typeof v === 'object'] (null included) and
    [Array.isArray(v)]. *)
Definition is_string (v : value) : bool :=
  match v with VStr _ => true | _ => false end.
Definition typeof_object (v : value) : bool :=
  match v with VNull | VArr _ | VObj _ => true | _ => false end.
Definition isArray (v : value) : bool :=
  match v with VArr _ => true | _ => false end.

(** [v == null]: v is null or undefined. *)
Definition nullish (v : value) : bool :=
  match v with VUndefined | VNull => true | _ => false end.

(** ToBoolean. *)
Definition truthy (v : value) : bool :=
  match v with
  | VUndefined | VNull => false
  | VBool b => b
  | VNum n => negb (n =? 0)
  | VStr s => negb (s =? "")%string
  | VArr _ | VObj _ => true
  end.

(** [a || b]. *)
Definition or_else (a b : value) : value := if truthy a then a else b.

(** [String(v)], as a template literal [`${v}`] computes it. *)
Fixpoint to_string (v : value) : string :=
  match v with
  | VUndefined => "undefined"
  | VNull => "null"
  | VBool true => "true"
  | VBool false => "false"
  | VNum n => number_to_string n
  | VStr s => s
  | VArr items =>
      String.concat ","
        (map (fun e => match e with
                       | VUndefined | VNull => ""
                       | _ => to_string e
                       end) items)
  | VObj _ => "[object Object]"
  end.

(** The characters of a string, each as a one-character string value. *)
Fixpoint chars (s : string) : list value :=
  match s with
  | EmptyString => []
  | String c r => VStr (str1 c) :: chars r
  end.

(** Pairs every element with its index, the index written as a property key. *)
Fixpoint indexed_from (i : nat) (l : list value) : list (string * value) :=
  match l with
  | [] => []
  | x :: r => (number_to_string (Z.of_nat i), x) :: indexed_from (S i) r
  end.

(** [Object.entries(v)] for a value that is neither null nor undefined. *)
Definition Object_entries (v : value) : list (string * value) :=
  match v with
  | VObj props => props
  | VArr items => indexed_from 0 items
  | VStr s => indexed_from 0 (chars s)
  | _ => []
  end.

Definition Object_keys (v : value) : list string := map fst (Object_entries v).

(** Own property lookup in a property list. *)
Fixpoint lookup (k : string) (props : list (string * value)) : option value :=
  match props with
  | [] => None
  | (k', v) :: r => if (k' =? k)%string then Some v else lookup k r
  end.

(** [v[k]] for a value that is neither null nor undefined: own properties, and
    [length] of arrays and strings. *)
Definition member (v : value) (k : string) : value :=
  match v with
  | VObj props => match lookup k props with Some x => x | None => VUndefined end
  | VArr items =>
      if (k =? "length")%string then VNum (Z.of_nat (List.length items))
      else match lookup k (indexed_from 0 items) with Some x => x | None => VUndefined end
  | VStr s =>
      if (k =? "length")%string then VNum (Z.of_nat (String.length s))
      else match lookup k (indexed_from 0 (chars s)) with Some x => x | None => VUndefined end
  | _ => VUndefined
  end.

(** [v?.[k]]. *)
Definition opt_member (v : value) (k : string) : value :=
  if nullish v then VUndefined else member v k.

(** Defining property [k] in an object literal under construction: an existing
    property keeps its place and takes the new value, a new one goes last. *)
Fixpoint define (k : string) (x : value) (props : list (string * value))
  : list (string * value) :=
  match props with
  | [] => [(k, x)]
  | (k', y) :: r => if (k' =? k)%string then (k', x) :: r else (k', y) :: define k x r
  end.

(** [a.push(x)]. *)
Definition push {A : Type} (a : list A) (x : A) : list A := app a [x].

(** [s.split(sep)] for a one-character separator. *)
Fixpoint split_on (sep : ascii) (s : string) : list string :=
  match s with
  | EmptyString => [""]
  | String c r =>
      if Ascii.eqb c sep then "" :: split_on sep r
      else match split_on sep r with
           | [] => [str1 c]
           | w :: ws => String c w :: ws
           end
  end.

End Js.
Import Js.

(** ** JSON text: [JSON.stringify] and [JSON.parse] *)

Module Json.

Definition nl : string := String "010"%char "".

Definition hex_digit (n : nat) : ascii :=
  match n with
  | 0 => "0" | 1 => "1" | 2 => "2" | 3 => "3" | 4 => "4" | 5 => "5" | 6 => "6"
  | 7 => "7" | 8 => "8" | 9 => "9" | 10 => "a" | 11 => "b" | 12 => "c"
  | 13 => "d" | 14 => "e" | _ => "f"
  end%nat%char.

(** One character of a quoted string: the quote, the backslash and the
    control characters are escaped, everything else stands for itself. *)
Definition quote_char (c : ascii) : string :=
  let n := nat_of_ascii c in
  if (n =? 34)%nat then "\" ++ dquote
  else if (n =? 92)%nat then "\\"
  else if (n =? 8)%nat then "\b"
  else if (n =? 12)%nat then "\f"
  else if (n =? 10)%nat then "\n"
  else if (n =? 13)%nat then "\r"
  else if (n =? 9)%nat then "\t"
  else if (n <? 32)%nat then
    "\u00" ++ String (hex_digit (n / 16)) (String (hex_digit (n mod 16)) "")
  else str1 c.

Fixpoint quote_body (s : string) : string :=
  match s with
  | EmptyString => ""
  | String c r => quote_char c ++ quote_body r
  end.

(** QuoteJSONString. *)
Definition quote (s : string) : string := dquote ++ quote_body s ++ dquote.

(** SerializeJSONProperty with the gap [gap] at the indentation [indent];
    [None] is the result [undefined]. *)
Fixpoint serialize (gap indent : string) (v : value) : option string :=
  let stepback := indent in
  let indent := indent ++ gap in
  let wrap (open close : string) (partial : list string) : string :=
    match partial with
    | [] => open ++ close
    | _ =>
        if (gap =? "")%string
        then open ++ String.concat "," partial ++ close
        else open ++ nl ++ indent
             ++ String.concat ("," ++ nl ++ indent) partial
             ++ nl ++ stepback ++ close
    end in
  match v with
  | VUndefined => None
  | VNull => Some "null"
  | VBool true => Some "true"
  | VBool false => Some "false"
  | VNum n => Some (number_to_string n)
  | VStr s => Some (quote s)
  | VArr items =>
      Some (wrap "[" "]"
              (map (fun e => match serialize gap indent e with
                             | Some t => t
                             | None => "null"
                             end) items))
  | VObj props =>
      Some (wrap "{" "}"
              (flat_map (fun kv => match kv with
                                   | (k, x) =>
                                       match serialize gap indent x with
                                       | Some t =>
                                           [quote k ++ ":"
                                            ++ (if (gap =? "")%string then "" else " ")
                                            ++ t]
                                       | None => []
                                       end
                                   end) props))
  end.

(** [JSON.stringify(v, null, space)] for a numeric [space]: the gap is that
    many blanks, ten at most. *)
Fixpoint blanks (n : nat) : string :=
  match n with O => "" | S k => " " ++ blanks k end.

Definition stringify (v : value) (space : Z) : option string :=
  serialize (blanks (Z.to_nat (Z.min space 10))) "" v.

(** *** Reading JSON text *)

Definition is_ws (c : ascii) : bool :=
  let n := nat_of_ascii c in
  ((n =? 32) || (n =? 9) || (n =? 10) || (n =? 13))%nat.

Definition is_digit (c : ascii) : bool :=
  let n := nat_of_ascii c in ((48 <=? n) && (n <=? 57))%nat.

Fixpoint skip_ws (s : string) : string :=
  match s with
  | String c r => if is_ws c then skip_ws r else s
  | EmptyString => s
  end.

Definition hex_value (c : ascii) : option nat :=
  let n := nat_of_ascii c in
  if ((48 <=? n) && (n <=? 57))%nat then Some (n - 48)%nat
  else if ((97 <=? n) && (n <=? 102))%nat then Some (n - 87)%nat
  else if ((65 <=? n) && (n <=? 70))%nat then Some (n - 55)%nat
  else None.

(** The character a one-letter escape denotes. *)
Definition unescape (e : ascii) : option ascii :=
  let n := nat_of_ascii e in
  if (n =? 34)%nat then Some e
  else if (n =? 92)%nat then Some e
  else if (n =? 47)%nat then Some e
  else if (n =? 98)%nat then Some (ascii_of_nat 8)
  else if (n =? 102)%nat then Some (ascii_of_nat 12)
  else if (n =? 110)%nat then Some (ascii_of_nat 10)
  else if (n =? 114)%nat then Some (ascii_of_nat 13)
  else if (n =? 116)%nat then Some (ascii_of_nat 9)
  else None.

(** The rest of a string literal after its opening quote: the characters it
    denotes and the text after the closing quote.  A [\u] escape above 00ff
    denotes a character outside the model. *)
Fixpoint read_string (s : string) : option (string * string) :=
  match s with
  | EmptyString => None
  | String c r =>
      if (nat_of_ascii c =? 34)%nat then Some ("", r)
      else if (nat_of_ascii c =? 92)%nat then
        match r with
        | String e r1 =>
            if (nat_of_ascii e =? 117)%nat then
              match r1 with
              | String h1 (String h2 (String h3 (String h4 r2))) =>
                  match hex_value h1, hex_value h2, hex_value h3, hex_value h4 with
                  | Some 0%nat, Some 0%nat, Some a, Some b =>
                      match read_string r2 with
                      | Some (t, rest) => Some (String (ascii_of_nat (16 * a + b)) t, rest)
                      | None => None
                      end
                  | _, _, _, _ => None
                  end
              | _ => None
              end
            else
              match unescape e with
              | Some d =>
                  match read_string r1 with
                  | Some (t, rest) => Some (String d t, rest)
                  | None => None
                  end
              | None => None
              end
        | EmptyString => None
        end
      else if (nat_of_ascii c <? 32)%nat then None
      else
        match read_string r with
        | Some (t, rest) => Some (String c t, rest)
        | None => None
        end
  end.

(** The longest prefix of digits, and what follows it. *)
Fixpoint span_digits (s : string) : string * string :=
  match s with
  | String c r =>
      if is_digit c then let (d, rest) := span_digits r in (String c d, rest)
      else ("", s)
  | EmptyString => ("", "")
  end.

(** A number: an optional minus sign and a decimal numeral without
    superfluous zeros.  A fraction or an exponent denotes a number outside
    the model. *)
Definition read_number (s : string) : option (Z * string) :=
  let (sign, body) :=
    match s with
    | String c r => if (nat_of_ascii c =? 45)%nat then ("-", r) else ("", s)
    | EmptyString => ("", s)
    end in
  let (digits, rest) := span_digits body in
  let token := sign ++ digits in
  match rest with
  | String c _ =>
      if ((nat_of_ascii c =? 46) || (nat_of_ascii c =? 101) || (nat_of_ascii c =? 69))%nat
      then None
      else
        match NilZero.int_of_string token with
        | Some d =>
            if (number_to_string (Z.of_int d) =? token)%string
            then Some (Z.of_int d, rest) else None
        | None => None
        end
  | EmptyString =>
      match NilZero.int_of_string token with
      | Some d =>
          if (number_to_string (Z.of_int d) =? token)%string
          then Some (Z.of_int d, rest) else None
      | None => None
      end
  end.

(** [expect w s]: the text after the word [w] when [s] starts with it. *)
Fixpoint expect (w s : string) : option string :=
  match w, s with
  | EmptyString, _ => Some s
  | String a w', String b s' => if Ascii.eqb a b then expect w' s' else None
  | String _ _, EmptyString => None
  end.

(** A value, the elements of an array after its bracket, the members of an
    object after its brace.  [fuel] bounds the depth of the calls. *)
Fixpoint read_value (fuel : nat) (s : string) : option (value * string) :=
  match fuel with
  | O => None
  | S fuel =>
      match skip_ws s with
      | EmptyString => None
      | String c r =>
          let n := nat_of_ascii c in
          if (n =? 110)%nat then option_map (pair VNull) (expect "ull" r)
          else if (n =? 116)%nat then option_map (pair (VBool true)) (expect "rue" r)
          else if (n =? 102)%nat then option_map (pair (VBool false)) (expect "alse" r)
          else if (n =? 34)%nat then
            match read_string r with
            | Some (t, rest) => Some (VStr t, rest)
            | None => None
            end
          else if (n =? 91)%nat then
            match skip_ws r with
            | String c' r' =>
                if (nat_of_ascii c' =? 93)%nat then Some (VArr [], r')
                else
                  match read_elements fuel r with
                  | Some (items, rest) => Some (VArr items, rest)
                  | None => None
                  end
            | EmptyString => None
            end
          else if (n =? 123)%nat then
            match skip_ws r with
            | String c' r' =>
                if (nat_of_ascii c' =? 125)%nat then Some (VObj [], r')
                else
                  match read_members fuel r with
                  | Some (props, rest) =>
                      Some (VObj (fold_left (fun o kv => define (fst kv) (snd kv) o) props []),
                            rest)
                  | None => None
                  end
            | EmptyString => None
            end
          else
            match read_number (String c r) with
            | Some (z, rest) => Some (VNum z, rest)
            | None => None
            end
      end
  end
with read_elements (fuel : nat) (s : string) : option (list value * string) :=
  match fuel with
  | O => None
  | S fuel =>
      match read_value fuel s with
      | Some (v, r) =>
          match skip_ws r with
          | String c r' =>
              if (nat_of_ascii c =? 44)%nat then
                match read_elements fuel r' with
                | Some (vs, rest) => Some (v :: vs, rest)
                | None => None
                end
              else if (nat_of_ascii c =? 93)%nat then Some ([v], r')
              else None
          | EmptyString => None
          end
      | None => None
      end
  end
with read_members (fuel : nat) (s : string) : option (list (string * value) * string) :=
  match fuel with
  | O => None
  | S fuel =>
      match skip_ws s with
      | String q r =>
          if (nat_of_ascii q =? 34)%nat then
            match read_string r with
            | Some (k, r1) =>
                match skip_ws r1 with
                | String c r2 =>
                    if (nat_of_ascii c =? 58)%nat then
                      match read_value fuel r2 with
                      | Some (v, r3) =>
                          match skip_ws r3 with
                          | String c' r4 =>
                              if (nat_of_ascii c' =? 44)%nat then
                                match read_members fuel r4 with
                                | Some (ms, rest) => Some ((k, v) :: ms, rest)
                                | None => None
                                end
                              else if (nat_of_ascii c' =? 125)%nat then Some ([(k, v)], r4)
                              else None
                          | EmptyString => None
                          end
                      | None => None
                      end
                    else None
                | EmptyString => None
                end
            | None => None
            end
          else None
      | EmptyString => None
      end
  end.

(** [JSON.parse(s)]: one value and nothing but blanks after it; [None] is a
    SyntaxError (or a text that denotes a value outside the model). *)
Definition parse (s : string) : option value :=
  match read_value (S (String.length s)) s with
  | Some (v, rest) =>
      match skip_ws rest with
      | EmptyString => Some v
      | String _ _ => None
      end
  | None => None
  end.

End Json.

(** ** The process: console, spinner, provider, exit *)

Module Runtime.

(** [chalk] styles in use. *)
Inductive Style := Red | Yellow | Cyan | Gray | Green | BoldCyan | BoldWhite | Blue.

(** A string as the renderer hands it to the [table] package: plain, or
    wrapped by a [chalk] style. *)
Inductive text :=
| Plain (s : string)
| Chalk (st : Style) (s : string).

(** An argument of [console.log] or [console.error]. *)
Inductive Arg :=
| Val (v : value)
| Styled (st : Style) (s : string)
| Table (rows : list (list text)).

Inductive Event :=
| Log (args : list Arg)
| Err (args : list Arg)
| SpinnerStart (label : string)
| SpinnerText (label : string)
| SpinnerSucceed (label : string)
| SpinnerFail (label : string).

(** What [catch (error)] can receive, by what [handleApiError] reads of it:
    [error.response] with its status and data, else [error.request], else
    only [error.message]. *)
Inductive Error :=
| HttpError (status : Z) (data : value)
| NoResponse
| OtherError (message : string).

(** The axios instance [createClient] builds: base address, timeout, and the
    API key its Authorization header encodes. *)
Record Client := {
  baseURL : value;
  timeout : Z;
  credentials : value
}.

Record Request := {
  client : Client;
  endpoint : string;
  params : list (string * value)
}.

(** The outcome of [client.get]: the [data] of a response in the 2xx range,
    or the error axios rejects with. *)
Inductive Response :=
| Ok (data : value)
| Failed (e : Error).

Inductive Completion (A : Type) :=
| Normal (a : A)
| Threw (e : Error)
| Exited (code : Z).
Arguments Normal {A} a.
Arguments Threw {A} e.
Arguments Exited {A} code.

Section process.
(** The provider: any state, any answers. *)
Context {W : Type}.
Variable respond : W -> Request -> Response * W.

Record State := {
  world : W;
  exchanges : list (Request * Response);
  events : list Event
}.

Definition M (A : Type) : Type := State -> Completion A * State.

Definition ret {A} (a : A) : M A := fun st => (Normal a, st).

Definition bind {A B} (m : M A) (k : A -> M B) : M B :=
  fun st =>
    match m st with
    | (Normal a, st') => k a st'
    | (Threw e, st') => (Threw e, st')
    | (Exited c, st') => (Exited c, st')
    end.

Definition throw {A} (e : Error) : M A := fun st => (Threw e, st).

Definition process_exit {A} (code : Z) : M A := fun st => (Exited code, st).

Definition emit (ev : Event) : M unit :=
  fun st =>
    (Normal tt,
     {| world := world st; exchanges := exchanges st; events := events st ++ [ev] |}).

Definition console_log (args : list Arg) : M unit := emit (Log args).
Definition console_error (args : list Arg) : M unit := emit (Err args).

(** [if (spinner) spinner.<method>(...)]. *)
Definition when (b : bool) (m : M unit) : M unit := if b then m else ret tt.

(** [v.k]: a TypeError on null and undefined. *)
Definition read (v : value) (k : string) : M value :=
  if nullish v
  then throw (OtherError ("Cannot read properties of " ++ to_string v
                          ++ " (reading '" ++ k ++ "')"))
  else ret (member v k).

(** [...v] in a call: the elements of an array, the characters of a
    string, a TypeError otherwise. *)
Definition spread (v : value) : M (list value) :=
  match v with
  | VArr items => ret items
  | VStr s => ret (chars s)
  | _ => throw (OtherError "Spread syntax requires ...iterable[Symbol.iterator] to be a function")
  end.

(** [client.get(endpoint, { params })]: one exchange with the provider. *)
Definition http_get (c : Client) (ep : string) (ps : list (string * value)) : M value :=
  fun st =>
    let rq := {| client := c; endpoint := ep; params := ps |} in
    let (rs, w') := respond (world st) rq in
    let st' := {| world := w'; exchanges := exchanges st ++ [(rq, rs)];
                  events := events st |} in
    match rs with
    | Ok data => (Normal data, st')
    | Failed e => (Threw e, st')
    end.

End process.

Arguments State W : clear implicits.
Arguments M W A : clear implicits.

End Runtime.
Import Runtime.

Declare Scope proc_scope.
Delimit Scope proc_scope with proc.
Notation "x <- m ;; k" := (bind m (fun x => k))
  (at level 61, m at next level, right associativity) : proc_scope.
Notation "m ;;; k" := (bind m (fun _ => k))
  (at level 61, right associativity) : proc_scope.
Open Scope proc_scope.

(** ** config.js *)

Module Config.

(** The stored settings the core reads, and the environment variable
    CODAT_API_KEY; an unset one is [VUndefined]. *)
Record Settings := {
  apiKey : value;
  env_CODAT_API_KEY : value;
  baseUrl : value;
  outputFormat : value
}.

Definition getApiKey (cfg : Settings) : value :=
  or_else (or_else (apiKey cfg) (env_CODAT_API_KEY cfg)) VNull.

Definition getBaseUrl (cfg : Settings) : value :=
  or_else (baseUrl cfg) (VStr "https://api.codat.io").

Definition getOutputFormat (cfg : Settings) : value :=
  or_else (outputFormat cfg) (VStr "table").

End Config.
Import Config.

(** ** auth.js *)

Module Auth.
Section auth.
Context {W : Type}.
Variable cfg : Settings.

Definition requireAuth : M W value :=
  let apiKey := getApiKey cfg in
  (if negb (truthy apiKey) then
     console_error [Styled Red "Error: API key not configured"] ;;;
     console_error [Styled Yellow (Json.nl ++ "Please set your API key using one of these methods:")] ;;;
     console_error [Styled Cyan "  1. codat auth login"] ;;;
     console_error [Styled Cyan "  2. export CODAT_API_KEY=your_api_key"] ;;;
     console_error [Styled Cyan "  3. codat auth set-key <your_api_key>"] ;;;
     console_error [Styled Gray (Json.nl ++ "Get your API key from: https://app.codat.io/developers/api-keys")] ;;;
     process_exit 1
   else ret tt) ;;;
  ret apiKey.

End auth.
End Auth.
Import Auth.

(** ** api.js *)

Module Api.

(** The argument a JSON text makes for the console; [undefined] when
    [JSON.stringify] returns it. *)
Definition json_arg (v : value) (space : Z) : Arg :=
  match Json.stringify v space with
  | Some s => Val (VStr s)
  | None => Val VUndefined
  end.

(** [options] of [getAllPages]; an absent member is [None]. *)
Record PageOptions := {
  showSpinner : option bool;
  maxPages : option Z
}.

(** One pass of [buildQuery]'s loop over the entries. *)
Definition add_condition (conditions : list string) (entry : string * value)
  : list string :=
  let (key, value) := entry in
  if negb (nullish value) then
    if is_string value
    then push conditions (key ++ "=" ++ dquote ++ to_string value ++ dquote)
    else push conditions (key ++ "=" ++ to_string value)
  else conditions.

Definition buildQuery (filters : value) : string :=
  if negb (truthy filters) || (List.length (Object_keys filters) =? 0)%nat then ""
  else String.concat "&&" (fold_left add_condition (Object_entries filters) []).

Section api.
Context {W : Type}.
Variable respond : W -> Request -> Response * W.
Variable cfg : Settings.

Definition createClient : M W Client :=
  key <- requireAuth cfg ;;
  ret {| baseURL := getBaseUrl cfg; timeout := 30000; credentials := key |}.

(** The line of the switch on the status. *)
Definition report_status (status : Z) (data : value) : M W unit :=
  if status =? 400 then
    message <- read data "message" ;;
    (if truthy message
     then console_error [Styled Red "Bad Request:"; Val message]
     else
       error <- read data "error" ;;
       console_error [Styled Red "Bad Request:";
                      Val (or_else error (VStr "Invalid request parameters"))])
  else if status =? 401 then
    console_error [Styled Red "Unauthorized:";
                   Val (VStr "Invalid API key or authentication failed")] ;;;
    console_error [Styled Yellow "Hint: Check your API key with";
                   Styled Cyan "codat auth status"]
  else if status =? 403 then
    console_error [Styled Red "Forbidden:";
                   Val (VStr "You do not have permission to access this resource")]
  else if status =? 404 then
    console_error [Styled Red "Not Found:"; Val (VStr "Resource not found")]
  else if status =? 429 then
    console_error [Styled Red "Rate Limited:";
                   Val (VStr "Too many requests. Please try again later.")] ;;;
    retry <- read data "Retry-After" ;;
    when (truthy retry)
      (console_error [Styled Yellow ("Retry after: " ++ to_string retry ++ " seconds")])
  else if (status =? 500) || (status =? 502) || (status =? 503) then
    console_error [Styled Red "Server Error:";
                   Val (VStr "Codat API is experiencing issues")] ;;;
    console_error [Styled Yellow "Please try again later"]
  else
    message <- read data "message" ;;
    (if truthy message
     then console_error [Styled Red ("HTTP " ++ number_to_string status ++ ":"); Val message]
     else
       error <- read data "error" ;;
       console_error [Styled Red ("HTTP " ++ number_to_string status ++ ":");
                      Val (or_else error (VStr "Unknown error"))]).

(** "Show detailed error if available": after the switch, whatever the
    status. *)
Definition report_details (data : value) : M W unit :=
  details <- read data "details" ;;
  (if truthy details
   then console_error [Styled Gray (Json.nl ++ "Details:"); json_arg details 2]
   else
     validation <- read data "validation" ;;
     when (truthy validation)
       (console_error [Styled Gray (Json.nl ++ "Details:"); json_arg validation 2])).

Definition handleApiError (error : Error) : M W unit :=
  match error with
  | HttpError status data =>
      report_status status data ;;;
      report_details data
  | NoResponse =>
      console_error [Styled Red "Network Error:"; Val (VStr "No response from server")] ;;;
      console_error [Styled Yellow "Check your internet connection and try again"]
  | OtherError message =>
      console_error [Styled Red "Error:"; Val (VStr message)]
  end ;;;
  process_exit 1.

(** [{ ...params, page, pageSize: params.pageSize || 100 }]. *)
Definition page_params (params : value) (page : Z) : M W (list (string * value)) :=
  let copied := if nullish params then [] else Object_entries params in
  let with_page := define "page" (VNum page) copied in
  pageSize <- read params "pageSize" ;;
  ret (define "pageSize" (or_else pageSize (VNum 100)) with_page).

(** [data._links?.next?.href != null], for a [data] that is neither null
    nor undefined. *)
Definition has_next (data : value) : bool :=
  negb (nullish (opt_member (opt_member (member data "_links") "next") "href")).

(** The records one page contributes: [...(data.results || [])]. *)
Definition page_items (data : value) : M W (list value) :=
  results <- read data "results" ;;
  spread (or_else results (VArr [])).

(** The body of the while loop: the new [allResults] and [hasMore]. *)
Definition fetch_page (spinner : bool) (endpoint : string) (params : value)
           (page : Z) (allResults : list value) : M W (list value * bool) :=
  client <- createClient ;;
  query <- page_params params page ;;
  data <- http_get respond client endpoint query ;;
  items <- page_items data ;;
  let allResults := app allResults items in
  when spinner
    (emit (SpinnerText ("Fetching page " ++ number_to_string page ++ "... ("
                        ++ number_to_string (Z.of_nat (List.length allResults))
                        ++ " items)"))) ;;;
  links <- read data "_links" ;;
  ret (allResults, negb (nullish (opt_member (opt_member links "next") "href"))).

(** [while (hasMore && page <= maxPages) { ... }]; [None] when [fuel]
    iterations were not enough to leave the loop. *)
Fixpoint fetch_loop (fuel : nat) (spinner : bool) (endpoint : string) (params : value)
         (maxPages page : Z) (hasMore : bool) (allResults : list value)
         (st : State W) : option (Completion (list value) * State W) :=
  if hasMore && (page <=? maxPages) then
    match fuel with
    | O => None
    | S fuel =>
        match fetch_page spinner endpoint params page allResults st with
        | (Normal (allResults, hasMore), st') =>
            fetch_loop fuel spinner endpoint params maxPages (page + 1) hasMore allResults st'
        | (Threw e, st') => Some (Threw e, st')
        | (Exited c, st') => Some (Exited c, st')
        end
    end
  else Some (Normal allResults, st).

(** [getAllPages(endpoint, params = {}, options = {})]; the result is the
    array [allResults], or [undefined] past the catch block. *)
Definition getAllPages (fuel : nat) (endpoint : string) (params : value)
           (options : PageOptions) (st : State W)
  : option (Completion value * State W) :=
  let params := match params with VUndefined => VObj [] | _ => params end in
  let spinner := match showSpinner options with Some b => b | None => true end in
  let maxPages := match maxPages options with Some n => n | None => 10 end in
  let (_, st0) := when spinner (emit (SpinnerStart "Fetching all pages...")) st in
  match fetch_loop fuel spinner endpoint params maxPages 1 true [] st0 with
  | None => None
  | Some (Normal allResults, st1) =>
      Some ((when spinner
               (emit (SpinnerSucceed
                        ("Fetched " ++ number_to_string (Z.of_nat (List.length allResults))
                         ++ " items"))) ;;;
             ret (VArr allResults)) st1)
  | Some (Threw error, st1) =>
      Some ((when spinner (emit (SpinnerFail "Request failed")) ;;;
             handleApiError error ;;;
             ret VUndefined) st1)
  | Some (Exited c, st1) => Some (Exited c, st1)
  end.

End api.
End Api.
Import Api.

(** ** output.js *)

Module Output.

(** A column of the table: a bare key, or an object with key, header and an
    optional formatter called with the cell's value and the whole item. *)
Inductive Column :=
| ColKey (key : string)
| ColSpec (key header : string) (formatter : option (value -> value -> text)).

(** [options] of the renderer; an absent member is [VUndefined] or [None]. *)
Record RenderOptions := {
  format : value;
  pretty : value;
  fields : option (list string);
  columns : option (list Column);
  title : value
}.

(** [v === s] for a string literal [s]. *)
Definition is_str (v : value) (s : string) : bool :=
  match v with VStr t => (t =? s)%string | _ => false end.

(** [Array.isArray(data) ? data : [data]]. *)
Definition as_items (data : value) : list value :=
  match data with VArr items => items | _ => [data] end.

Definition getNestedValue (obj : value) (path : string) : value :=
  fold_left opt_member (split_on "."%char path) obj.

Definition inferColumns (obj : value) : list string :=
  if negb (truthy obj) || negb (typeof_object obj) then ["value"]
  else
    filter (fun key =>
              let value := member obj key in
              nullish value || negb (typeof_object value) || isArray value)
           (Object_keys obj).

Definition formatValue (v : value) : text :=
  match v with
  | VUndefined | VNull => Chalk Gray "—"
  | VBool true => Chalk Green "✓"
  | VBool false => Chalk Red "✗"
  | VArr items =>
      if (0 <? List.length items)%nat
      then Plain ("[" ++ number_to_string (Z.of_nat (List.length items)) ++ " items]")
      else Chalk Gray "[]"
  | VObj _ => Chalk Gray "[object]"
  | VStr s =>
      if (50 <? String.length s)%nat then Plain (String.substring 0 47 s ++ "...")
      else Plain (to_string v)
  | VNum _ => Plain (to_string v)
  end.

Definition column_header (col : Column) : string :=
  match col with ColKey k => k | ColSpec _ h _ => h end.

Definition column_key (col : Column) : string :=
  match col with ColKey k => k | ColSpec k _ _ => k end.

Definition column_formatter (col : Column) : option (value -> value -> text) :=
  match col with ColKey _ => None | ColSpec _ _ f => f end.

(** One cell of a data row. *)
Definition cell (item : value) (col : Column) : text :=
  let value := getNestedValue item (column_key col) in
  match column_formatter col with
  | Some formatter => formatter value item
  | None => formatValue value
  end.

Section output.
Context {W : Type}.
Variable cfg : Settings.

Fixpoint for_each {A : Type} (f : A -> M W unit) (l : list A) : M W unit :=
  match l with
  | [] => ret tt
  | x :: r => f x ;;; for_each f r
  end.

Definition outputJson (data : value) (options : RenderOptions) : M W unit :=
  let pretty := match pretty options with VUndefined => VBool true | p => p end in
  console_log [json_arg data (if truthy pretty then 2 else 0)].

Definition outputCompact (data : value) (options : RenderOptions) : M W unit :=
  for_each
    (fun item =>
       match fields options with
       | Some fields =>
           let parts :=
             map (fun field => field ++ "=" ++ to_string (getNestedValue item field))
                 fields in
           console_log [Val (VStr (String.concat " " parts))]
       | None => console_log [json_arg item 0]
       end)
    (as_items data).

Definition outputTable (data : value) (options : RenderOptions) : M W unit :=
  if negb (truthy data) then console_log [Styled Yellow "No data to display"]
  else
    let items := as_items data in
    if (List.length items =? 0)%nat then console_log [Styled Yellow "No results found"]
    else
      let tableColumns :=
        match columns options with
        | Some cols => cols
        | None => map ColKey (inferColumns (hd VUndefined items))
        end in
      let header := map (fun col => Chalk BoldCyan (column_header col)) tableColumns in
      let rows := map (fun item => map (cell item) tableColumns) items in
      let tableData := header :: rows in
      when (truthy (title options))
        (console_log [Styled BoldWhite (Json.nl ++ to_string (title options))]) ;;;
      console_log [Table tableData] ;;;
      console_log
        [Styled Gray (number_to_string (Z.of_nat (List.length items)) ++ " result"
                      ++ (if (List.length items =? 1)%nat then "" else "s"))].

Definition formatOutput (data : value) (options : RenderOptions) : M W unit :=
  let format := or_else (format options) (getOutputFormat cfg) in
  if is_str format "json" then outputJson data options
  else if is_str format "compact" then outputCompact data options
  else outputTable data options.

End output.
End Output.
Import Output.

(** ** The specification's reading of the query builder and of the
       traversal's stopping rule, for comparison with the code *)

Module Spec.

Inductive Operator := Equals | Contains | GreaterThan | LessThan.

Record Criterion := {
  field : string;
  operator : Operator;
  literal : value
}.

Definition symbol (op : Operator) : string :=
  match op with
  | Equals => "="
  | Contains => "~"
  | GreaterThan => ">"
  | LessThan => "<"
  end.

(** [field<op>literal], string literals quoted, numeric literals not. *)
Definition render (c : Criterion) : string :=
  field c ++ symbol (operator c)
  ++ (if is_string (literal c) then dquote ++ to_string (literal c) ++ dquote
      else to_string (literal c)).

Definition build (criteria : list Criterion) : string :=
  String.concat "&&" (map render criteria).

(** The filter object through which a caller hands criteria to [buildQuery]:
    one property per criterion, named by its field and holding its literal. *)
Definition filters_of (criteria : list Criterion) : value :=
  VObj (map (fun c => (field c, literal c)) criteria).

(** The same criterion with the operator [equals]. *)
Definition as_equals (c : Criterion) : Criterion :=
  {| field := field c; operator := Equals; literal := literal c |}.

(** A literal of the data model: a string or a number. *)
Definition is_literal (v : value) : bool :=
  match v with VStr _ | VNum _ => true | _ => false end.

(** The specification's stopping rule after the [fetched]-th page with
    response body [data]: no continuation marker, or an empty page, or the
    bound reached. *)
Definition page_is_empty (data : value) : bool :=
  match or_else (member data "results") (VArr []) with
  | VArr [] => true
  | _ => false
  end.

Definition stops_after (maxPages : Z) (fetched : nat) (data : value) : bool :=
  negb (has_next data) || page_is_empty data || (maxPages <=? Z.of_nat fetched).

End Spec.

(** ** Vocabulary of the statements *)

(** The number of positions of [s] at which [pat] occurs. *)
Fixpoint occurrences (pat s : string) : nat :=
  ((if String.prefix pat s then 1 else 0)
   + match s with
     | EmptyString => 0
     | String _ r => occurrences pat r
     end)%nat.

(** [s] contains the character [c]. *)
Fixpoint has_char (c : ascii) (s : string) : bool :=
  match s with
  | EmptyString => false
  | String a r => Ascii.eqb a c || has_char c r
  end.

(** The condition [buildQuery] writes for an entry it keeps. *)
Definition condition (entry : string * value) : string :=
  fst entry ++ "="
  ++ (if is_string (snd entry) then dquote ++ to_string (snd entry) ++ dquote
      else to_string (snd entry)).

(** The entries [buildQuery] keeps: those whose value is neither null nor
    undefined. *)
Definition kept (entries : list (string * value)) : list (string * value) :=
  filter (fun entry => negb (nullish (snd entry))) entries.

(** The records a page contributes to the result: the elements of
    [data.results || []]. *)
Definition page_records (data : value) : list value :=
  match or_else (member data "results") (VArr []) with
  | VArr items => items
  | VStr s => chars s
  | _ => []
  end.

(** A value as JSON text denotes it: no [undefined] anywhere, and no object
    with two properties of one name. *)
Fixpoint is_json (v : value) : Prop :=
  match v with
  | VUndefined => False
  | VArr items => (fix all (l : list value) : Prop :=
                     match l with [] => True | x :: r => is_json x /\ all r end) items
  | VObj props =>
      NoDup (map fst props)
      /\ (fix all (l : list (string * value)) : Prop :=
            match l with [] => True | kv :: r => is_json (snd kv) /\ all r end) props
  | _ => True
  end.

(** The [results] page body of the listings: records, and a [next] link when
    [more] pages follow. *)
Definition page_body (records : list value) (more : bool) : value :=
  VObj [("results", VArr records);
        ("_links", VObj (if more
                         then [("next", VObj [("href", VStr "/next")])]
                         else []))].

(** The page number a request carries. *)
Definition page_of (rq : Request) : value := member (VObj (params rq)) "page".

(** The exchanges whose response is a page body. *)
Definition bodies (xs : list (Request * Response)) : list value :=
  flat_map (fun x => match snd x with Ok data => [data] | Failed _ => [] end) xs.

(** Settings with a stored API key and nothing else, and a state in which
    nothing has happened yet. *)
Definition settings0 : Settings :=
  {| apiKey := VStr "0123456789abcdef01234567"; env_CODAT_API_KEY := VUndefined;
     baseUrl := VUndefined; outputFormat := VUndefined |}.

Definition state0 {W : Type} (w : W) : State W :=
  {| world := w; exchanges := []; events := [] |}.

(** A provider that answers by page number alone. *)
Definition by_page (answer : Z -> Response) (w : unit) (rq : Request) : Response * unit :=
  (match page_of rq with VNum p => answer p | _ => Failed NoResponse end, w).

Definition record (id : Z) : value := VObj [("id", VNum id)].

(** Scenario C: three pages of two records each, then an empty page without
    a continuation marker. *)
Definition scenario_C (p : Z) : Response :=
  if p <=? 3 then Ok (page_body [record (2 * p - 1); record (2 * p)] true)
  else Ok (page_body [] false).

(** An empty first page that carries a continuation marker, then a page of
    one record without one. *)
Definition empty_then_more (p : Z) : Response :=
  if p =? 1 then Ok (page_body [] true) else Ok (page_body [record p] false).

(** A provider that always signals continuation. *)
Definition endless (p : Z) : Response := Ok (page_body [record p] true).

(** Two good pages, then status 500 on the third. *)
Definition fails_on_third (p : Z) : Response :=
  if p <=? 2 then Ok (page_body [record p] true)
  else Failed (HttpError 500 (VObj [])).

Definition no_options : PageOptions := {| showSpinner := Some false; maxPages := None |}.

Definition plain_options (fmt : value) : RenderOptions :=
  {| format := fmt; pretty := VUndefined; fields := None; columns := None;
     title := VUndefined |}.

(** Scenario B of the specification, and the filter object of its fields
    and literals. *)
Definition scenario_B : list Spec.Criterion :=
  [ {| Spec.field := "status"; Spec.operator := Spec.Equals; Spec.literal := VStr "Open" |};
    {| Spec.field := "totalAmount"; Spec.operator := Spec.GreaterThan;
       Spec.literal := VNum 500 |} ].

(** ** The traversal, as a relation

    [Traversal maxPages page hasMore allResults xs c]: entered with [page],
    [hasMore] and [allResults], the loop of [getAllPages] makes the
    exchanges [xs] with the provider, in this order, and completes with [c]. *)
Inductive Traversal (maxPages : Z)
  : Z -> bool -> list value -> list (Request * Response)
    -> Completion (list value) -> Prop :=
| T_done page hasMore allResults :
    hasMore && (page <=? maxPages) = false ->
    Traversal maxPages page hasMore allResults [] (Normal allResults)
| T_page page hasMore allResults rq data xs c :
    hasMore && (page <=? maxPages) = true ->
    Traversal maxPages (page + 1) (has_next data) (app allResults (page_records data)) xs c ->
    Traversal maxPages page hasMore allResults ((rq, Ok data) :: xs) c
| T_failed page hasMore allResults rq e :
    hasMore && (page <=? maxPages) = true ->
    Traversal maxPages page hasMore allResults [(rq, Failed e)] (Threw e)
| T_bad_page page hasMore allResults rq data e :
    hasMore && (page <=? maxPages) = true ->
    Traversal maxPages page hasMore allResults [(rq, Ok data)] (Threw e)
| T_no_request page hasMore allResults c :
    hasMore && (page <=? maxPages) = true ->
    (forall all, c <> Normal all) ->
    Traversal maxPages page hasMore allResults [] c.

(** What the caller of [getAllPages] sees of a completion of
    [handleApiError]. *)
Definition after_handler (c : Completion unit) : Completion value :=
  match c with
  | Normal _ => Normal VUndefined
  | Threw e => Threw e
  | Exited code => Exited code
  end.

(** The bound in force: [options.maxPages], 10 when absent. *)
Definition page_bound (options : PageOptions) : Z :=
  match maxPages options with Some n => n | None => 10 end.

(** [reported e r st]: the completion [r] in the state [st] is that of
    [handleApiError e], run after every exchange was made. *)
Definition reported {W : Type} (e : Error) (r : Completion value) (st : State W) : Prop :=
  exists st1,
    exchanges st1 = exchanges st
    /\ r = after_handler (fst (handleApiError e st1))
    /\ st = snd (handleApiError e st1).

(** What a run shows from outside: its completion and the number of
    exchanges it made. *)
Definition summary {W : Type} (run : option (Completion value * State W))
  : option (Completion value * nat) :=
  option_map (fun x => (fst x, List.length (exchanges (snd x)))) run.

(** A listing of invoices against the provider [answer], with ample fuel. *)
Definition run_of (answer : Z -> Response) (options : PageOptions)
  : option (Completion value * State unit) :=
  getAllPages (by_page answer) settings0 10 "/companies/c1/data/invoices" VUndefined
    options (state0 tt).

(** The state after more console events. *)
Definition with_events {W : Type} (st : State W) (evs : list Event) : State W :=
  {| world := world st; exchanges := exchanges st; events := (events st ++ evs)%list |}.

(** The "Details" line of [handleApiError] for a response body. *)
Definition details_lines (data : value) : list Event :=
  let shown := or_else (member data "details") (member data "validation") in
  if truthy shown
  then [Err [Styled Gray (Json.nl ++ "Details:"); json_arg shown 2]]
  else [].

(** Settings whose stored output format is json. *)
Definition settings_json : Settings :=
  {| apiKey := VStr "0123456789abcdef01234567"; env_CODAT_API_KEY := VUndefined;
     baseUrl := VUndefined; outputFormat := VStr "json" |}.

(** A 401 response body that carries a validation member. *)
Definition body_with_validation : value :=
  VObj [("validation", VObj [("amount", VStr "must be positive")])].

(** ** The compact JSON text of a value

    What [JSON.stringify(v, null, 0)] writes for a value without
    [undefined]. *)
Fixpoint text (v : value) : string :=
  match v with
  | VUndefined | VNull => "null"
  | VBool true => "true"
  | VBool false => "false"
  | VNum n => number_to_string n
  | VStr s => Json.quote s
  | VArr items => "[" ++ String.concat "," (map text items) ++ "]"
  | VObj props =>
      "{" ++ String.concat ","
               (map (fun kv => Json.quote (fst kv) ++ ":" ++ text (snd kv)) props)
          ++ "}"
  end.

(** The depth of calls [Json.read_value] needs on the text of a value. *)
Fixpoint size (v : value) : nat :=
  match v with
  | VArr items => S (fold_right (fun x n => S (size x + n)) O items)
  | VObj props => S (fold_right (fun kv n => S (size (snd kv) + n)) O props)
  | _ => 1
  end.

(** What may follow a number in a text: not a digit, and nothing that would
    continue the numeral. *)
Definition delimited (rest : string) : Prop :=
  match rest with
  | EmptyString => True
  | String c _ =>
      Json.is_digit c = false
      /\ nat_of_ascii c <> 46%nat /\ nat_of_ascii c <> 101%nat /\ nat_of_ascii c <> 69%nat
  end.

(** What the tests of [read_value] and [read_number] see of a numeral's
    first character. *)
Definition starts_number (c : ascii) : Prop :=
  Json.is_ws c = false
  /\ (nat_of_ascii c =? 110)%nat = false /\ (nat_of_ascii c =? 116)%nat = false
  /\ (nat_of_ascii c =? 102)%nat = false /\ (nat_of_ascii c =? 34)%nat = false
  /\ (nat_of_ascii c =? 91)%nat = false /\ (nat_of_ascii c =? 123)%nat = false
  /\ (nat_of_ascii c =? 93)%nat = false.

(** What [read_value] must do on the text of [x], whatever follows it. *)
Definition reads_back (x : value) : Prop :=
  forall fuel rest,
    (size x <= fuel)%nat -> delimited rest ->
    Json.read_value fuel (text x ++ rest) = Some (x, rest).

(** Two invoices, as a listing returns them. *)
Definition invoices_A : value :=
  VArr [ VObj [("id", VNum 1); ("status", VStr "Paid"); ("totalAmount", VNum 120);
               ("customerRef", VObj [("companyName", VStr ("Acme " ++ dquote ++ "West" ++ dquote))]);
               ("lineItems", VArr [VObj [("quantity", VNum (-2))]; VNull])];
         VObj [("id", VNum 2); ("status", VStr "Open"); ("totalAmount", VNum 75);
               ("paid", VBool false)] ].

(** A computation that talks to the console only: no exchange with the
    provider, and no exit. *)
Definition quiet {W A : Type} (m : M W A) : Prop :=
  forall st,
    exchanges (snd (m st)) = exchanges st
    /\ world (snd (m st)) = world st
    /\ forall c, fst (m st) <> Exited c.

(** ** config.js: the setters *)

Module Store.

Definition setApiKey (cfg : Settings) (apiKey : string) : Settings :=
  {| apiKey := VStr apiKey; env_CODAT_API_KEY := env_CODAT_API_KEY cfg;
     baseUrl := baseUrl cfg; outputFormat := outputFormat cfg |}.

(** [['table', 'json', 'compact'].includes(format)]. *)
Definition known_format (format : value) : bool :=
  is_str format "table" || is_str format "json" || is_str format "compact".

(** [setOutputFormat(format)]: the settings after the call, or the Error it
    throws. *)
Definition setOutputFormat (cfg : Settings) (format : value) : Settings + Error :=
  if negb (known_format format)
  then inr (OtherError "Invalid output format. Must be: table, json, or compact")
  else inl {| apiKey := apiKey cfg; env_CODAT_API_KEY := env_CODAT_API_KEY cfg;
              baseUrl := baseUrl cfg; outputFormat := format |}.

(** [!!getApiKey()]. *)
Definition isConfigured (cfg : Settings) : bool := truthy (getApiKey cfg).

(** [config.clear()]: every stored setting is gone; the environment is not
    part of the store. *)
Definition clearConfig (cfg : Settings) : Settings :=
  {| apiKey := VUndefined; env_CODAT_API_KEY := env_CODAT_API_KEY cfg;
     baseUrl := VUndefined; outputFormat := VUndefined |}.

End Store.

(** ** auth.js: the key's format, and its masked form (commands/auth.js) *)

Module Keys.

(** [apiKey && typeof apiKey === 'string' && apiKey.length >= 20]. *)
Definition validateApiKeyFormat (apiKey : value) : value :=
  if negb (truthy apiKey) then apiKey
  else if negb (is_string apiKey) then VBool false
  else match apiKey with
       | VStr s => VBool (20 <=? String.length s)%nat
       | _ => VBool false
       end.

(** [maskApiKey(apiKey)] for what [getApiKey] gives: a string, or null
    ([None]). *)
Definition maskApiKey (apiKey : option string) : string :=
  match apiKey with
  | None => "***"
  | Some s =>
      if negb (truthy (VStr s)) || (String.length s <? 8)%nat then "***"
      else
        let visible := 4%nat in
        String.substring 0 visible s ++ "***"
        ++ String.substring (String.length s - visible) visible s
  end.

End Keys.

(** ** api.js: one request *)

Module Single.

(** [options] of [get]; an absent member is [None]. *)
Record Options := {
  showSpinner : option bool;
  spinnerText : option string
}.

Definition no_options : Options := {| showSpinner := None; spinnerText := None |}.

Section single.
Context {W : Type}.
Variable respond : W -> Request -> Response * W.
Variable cfg : Settings.

(** [try { body } catch (error) { handler(error) }]: an exit is not caught. *)
Definition try_catch {A : Type} (body : M W A) (handler : Error -> M W A) : M W A :=
  fun st =>
    match body st with
    | (Threw e, st') => handler e st'
    | other => other
    end.

(** [get(endpoint, params = {}, options = {})]; the result is
    [response.data], or [undefined] past the catch block. *)
Definition get (endpoint : string) (params : value) (options : Options) : M W value :=
  let params := match params with VUndefined => VObj [] | _ => params end in
  let shown := match showSpinner options with Some b => b | None => true end in
  let label := match spinnerText options with Some t => t | None => "Fetching data..." end in
  when shown (emit (SpinnerStart label)) ;;;
  try_catch
    (client <- createClient cfg ;;
     data <- http_get respond client endpoint
               (if nullish params then [] else Object_entries params) ;;
     when shown (emit (SpinnerSucceed "Done")) ;;;
     ret data)
    (fun error =>
       when shown (emit (SpinnerFail "Request failed")) ;;;
       handleApiError error ;;;
       ret VUndefined).

End single.
End Single.

(** ** output.js: the message helpers *)

Module Messages.
Section messages.
Context {W : Type}.

Definition success (message : string) : M W unit :=
  console_log [Styled Green "✓"; Val (VStr message)].

Definition error (message : string) : M W unit :=
  console_error [Styled Red "✗"; Val (VStr message)].

Definition info (message : string) : M W unit :=
  console_log [Styled Blue "ℹ"; Val (VStr message)].

End messages.
End Messages.

(** ** commands: auth login, set-key and logout; invoices get *)

Module Commands.

(** [s.repeat(n)]. *)
Fixpoint repeat_string (s : string) (n : nat) : string :=
  match n with
  | O => ""
  | S k => s ++ repeat_string s k
  end.

Section commands.
Context {W : Type}.
Variable respond : W -> Request -> Response * W.
Variable cfg : Settings.
(** [getConfigPath()]. *)
Variable configPath : string.

(** The action of [auth login [apiKey]]: the settings it leaves. *)
Definition login (apiKey : option string) : M W Settings :=
  let instructions : M W Settings :=
    console_log [Styled Cyan (Json.nl ++ "Codat API Authentication Setup")] ;;;
    console_log [Styled Gray (repeat_string "─" 50)] ;;;
    console_log [Val (VStr (Json.nl ++ "To get your API key:"))] ;;;
    console_log [Styled Yellow "  1. Go to https://app.codat.io/developers/api-keys"] ;;;
    console_log [Styled Yellow "  2. Create a new API key or copy an existing one"] ;;;
    console_log [Styled Yellow "  3. Run: codat auth login <your_api_key>"] ;;;
    console_log [Val (VStr (Json.nl ++ "Alternatively, set the CODAT_API_KEY environment variable."))] ;;;
    ret cfg in
  match apiKey with
  | None => instructions
  | Some key =>
      if negb (truthy (VStr key)) then instructions
      else
        (if negb (truthy (Keys.validateApiKeyFormat (VStr key))) then
           Messages.error "Invalid API key format" ;;;
           console_log [Styled Gray "API key should be at least 20 characters long"] ;;;
           process_exit 1
         else ret tt) ;;;
        let cfg' := Store.setApiKey cfg key in
        Messages.success "API key saved successfully" ;;;
        console_log [Styled Gray ("Config location: " ++ configPath)] ;;;
        ret cfg'
  end.

(** The action of [auth set-key <apiKey>]. *)
Definition set_key (apiKey : string) : M W Settings :=
  (if negb (truthy (Keys.validateApiKeyFormat (VStr apiKey))) then
     Messages.error "Invalid API key format" ;;;
     process_exit 1
   else ret tt) ;;;
  let cfg' := Store.setApiKey cfg apiKey in
  Messages.success "API key saved successfully" ;;;
  ret cfg'.

(** The action of [auth logout]. *)
Definition logout : M W Settings :=
  if negb (Store.isConfigured cfg) then
    Messages.info "No credentials to remove" ;;;
    ret cfg
  else
    let cfg' := Store.clearConfig cfg in
    Messages.success "Credentials removed" ;;;
    console_log [Styled Gray "You can log in again with: codat auth login"] ;;;
    ret cfg'.

(** The action of [invoices get <companyId> <invoiceId>], with the value of
    its [--format] option. *)
Definition invoices_get (companyId invoiceId : string) (format : value) : M W unit :=
  data <- Single.get respond cfg
            ("/companies/" ++ companyId ++ "/data/invoices/" ++ invoiceId)
            VUndefined Single.no_options ;;
  formatOutput cfg data
    {| Output.format := format; pretty := VUndefined; fields := None; columns := None;
       title := VUndefined |}.

End commands.
End Commands.

(** ** More vocabulary *)

(** The event is a line on the error stream. *)
Definition is_err (ev : Event) : bool :=
  match ev with Err _ => true | _ => false end.

(** The event is a line on the standard output. *)
Definition is_log (ev : Event) : bool :=
  match ev with Log _ => true | _ => false end.

(** No character of [s] is a control character (below 32). *)
Fixpoint printable (s : string) : bool :=
  match s with
  | EmptyString => true
  | String c r => negb (nat_of_ascii c <? 32)%nat && printable r
  end.

(** The lines [handleApiError] writes for a response status, before the
    "Details" line, when reading the body does not throw. *)
Definition status_lines (status : Z) (data : value) : list Event :=
  let said := fun fallback =>
    or_else (member data "message") (or_else (member data "error") (VStr fallback)) in
  if status =? 400 then [Err [Styled Red "Bad Request:"; Val (said "Invalid request parameters")]]
  else if status =? 401 then
    [Err [Styled Red "Unauthorized:"; Val (VStr "Invalid API key or authentication failed")];
     Err [Styled Yellow "Hint: Check your API key with"; Styled Cyan "codat auth status"]]
  else if status =? 403 then
    [Err [Styled Red "Forbidden:";
          Val (VStr "You do not have permission to access this resource")]]
  else if status =? 404 then [Err [Styled Red "Not Found:"; Val (VStr "Resource not found")]]
  else if status =? 429 then
    Err [Styled Red "Rate Limited:"; Val (VStr "Too many requests. Please try again later.")]
    :: (if truthy (member data "Retry-After")
        then [Err [Styled Yellow ("Retry after: " ++ to_string (member data "Retry-After")
                                  ++ " seconds")]]
        else [])
  else if (status =? 500) || (status =? 502) || (status =? 503) then
    [Err [Styled Red "Server Error:"; Val (VStr "Codat API is experiencing issues")];
     Err [Styled Yellow "Please try again later"]]
  else [Err [Styled Red ("HTTP " ++ number_to_string status ++ ":"); Val (said "Unknown error")]].

(** The statuses [handleApiError] has a case for. *)
Definition known_status (status : Z) : bool :=
  (status =? 400) || (status =? 401) || (status =? 403) || (status =? 404)
  || (status =? 429) || (status =? 500) || (status =? 502) || (status =? 503).

(** The lines [requireAuth] writes when no API key is configured. *)
Definition no_key_lines : list Event :=
  [Err [Styled Red "Error: API key not configured"];
   Err [Styled Yellow (Json.nl ++ "Please set your API key using one of these methods:")];
   Err [Styled Cyan "  1. codat auth login"];
   Err [Styled Cyan "  2. export CODAT_API_KEY=your_api_key"];
   Err [Styled Cyan "  3. codat auth set-key <your_api_key>"];
   Err [Styled Gray (Json.nl ++ "Get your API key from: https://app.codat.io/developers/api-keys")]].

(** The axios instance every request of the settings [cfg] is made with. *)
Definition client_of (cfg : Settings) : Client :=
  {| baseURL := getBaseUrl cfg; timeout := 30000; credentials := getApiKey cfg |}.

(** The request of the traversal for one page:
    [{ ...params, page, pageSize: params.pageSize || 100 }] to the endpoint. *)
Definition page_request (cfg : Settings) (ep : string) (given : value) (page : Z) : Request :=
  {| client := client_of cfg; endpoint := ep;
     params := define "pageSize" (or_else (member given "pageSize") (VNum 100))
                 (define "page" (VNum page) (Object_entries given)) |}.

(** Every character of [s] is a blank of JSON text. *)
Fixpoint blank (s : string) : bool :=
  match s with
  | EmptyString => true
  | String c r => Json.is_ws c && blank r
  end.

(** [s] is a text of [v]: it starts with the value, is long enough for the
    fuel [JSON.parse] takes, and is read back as [v] before whatever
    follows. *)
Definition denotes (s : string) (v : value) : Prop :=
  (size v <= String.length s)%nat
  /\ (exists c r, s = String c r
                  /\ Json.is_ws c = false /\ (nat_of_ascii c =? 93)%nat = false)
  /\ forall fuel rest,
       (size v <= fuel)%nat -> delimited rest ->
       Json.read_value fuel (s ++ rest) = Some (v, rest).

(** The text of a member: its quoted name, a colon, blanks and a text of
    its value. *)
Definition member_text (w3 : string) (m : string) (kv : string * value) : Prop :=
  exists t, m = Json.quote (fst kv) ++ ":" ++ w3 ++ t /\ denotes t (snd kv).

(** The request of [invoices get <companyId> <invoiceId>]. *)
Definition invoice_request (cfg : Settings) (companyId invoiceId : string) : Request :=
  {| client := client_of cfg;
     endpoint := "/companies/" ++ companyId ++ "/data/invoices/" ++ invoiceId;
     params := [] |}.

(** A provider that gives every request the same answer. *)
Definition always (rs : Response) (w : unit) (rq : Request) : Response * unit := (rs, w).

(** The events of a run, with its lists flattened. *)
Ltac run_events :=
  repeat (cbv beta iota; cbn [world exchanges events fst snd]);
  rewrite <- ?app_assoc; cbn [app].

(** * Properties *)

(** ** Strings and lists *)

Lemma append_empty_r (s : string) : s ++ "" = s.
Proof. induction s as [|c s IH]; simpl; [reflexivity | now rewrite IH]. Qed.

Lemma append_assoc (a b c : string) : (a ++ b) ++ c = a ++ (b ++ c).
Proof. induction a as [|x a IH]; simpl; [reflexivity | now rewrite IH]. Qed.

Lemma length_append (a b : string) :
  String.length (a ++ b) = (String.length a + String.length b)%nat.
Proof. induction a as [|x a IH]; simpl; [reflexivity | now rewrite IH]. Qed.

(** ** The query builder *)

Section query_builder.

Lemma add_condition_kept (entries : list (string * value)) :
  forall acc,
    fold_left add_condition entries acc = (acc ++ map condition (kept entries))%list.
Proof.
  induction entries as [|[key v] entries IH]; intros acc; simpl.
  - now rewrite app_nil_r.
  - rewrite IH. unfold condition, push. simpl.
    destruct (nullish v); simpl.
    + reflexivity.
    + destruct (is_string v); now rewrite <- app_assoc.
Qed.

(** On an object, the query is the kept entries' conditions, in the order of
    the entries, joined by the separator. *)
Lemma buildQuery_object (props : list (string * value)) :
  buildQuery (VObj props) = String.concat "&&" (map condition (kept props)).
Proof.
  unfold buildQuery, Object_keys. simpl.
  destruct props as [|p props]; [reflexivity|].
  cbn [map List.length Nat.eqb].
  now rewrite add_condition_kept.
Qed.

Lemma kept_literals (cs : list Spec.Criterion) :
  Forall (fun c => Spec.is_literal (Spec.literal c) = true) cs ->
  map condition (kept (map (fun c => (Spec.field c, Spec.literal c)) cs))
  = map Spec.render (map Spec.as_equals cs).
Proof.
  induction 1 as [|c cs Hc _ IH]; [reflexivity|].
  simpl. destruct (Spec.literal c) eqn:E; try discriminate Hc; simpl.
  - rewrite IH. unfold condition, Spec.render. simpl. now rewrite E.
  - rewrite IH. unfold condition, Spec.render. simpl. now rewrite E.
Qed.

(** A condition is never the empty string: it holds the sign [=]. *)
Lemma condition_not_empty (entry : string * value) : condition entry <> "".
Proof.
  unfold condition. destruct (fst entry); simpl; discriminate.
Qed.

Lemma occurrences_skip (pat x s : string) (c : ascii) :
  has_char c x = false ->
  forall p, pat = String c p ->
  occurrences pat (x ++ s) = occurrences pat s.
Proof.
  intros Hx p ->. induction x as [|a x IH]; [reflexivity|].
  simpl in Hx. apply orb_false_iff in Hx as [Ha Hx].
  cbn [append occurrences String.prefix].
  destruct (ascii_dec c a) as [->|Hne].
  - now rewrite Ascii.eqb_refl in Ha.
  - now rewrite IH.
Qed.

(** Joining [n] conditions free of the character [&] writes the separator
    [n - 1] times, and it occurs nowhere else. *)
Lemma occurrences_join (conds : list string) :
  Forall (fun c => has_char "&" c = false /\ c <> "") conds ->
  occurrences "&&" (String.concat "&&" conds) = (List.length conds - 1)%nat.
Proof.
  induction 1 as [|x conds [Hx Hnz] Hall IH]; [reflexivity|].
  destruct conds as [|y conds].
  - simpl. rewrite <- (append_empty_r x).
    now rewrite (occurrences_skip "&&" x "" "&" Hx "&").
  - change (String.concat "&&" (x :: y :: conds))
      with (x ++ "&&" ++ String.concat "&&" (y :: conds)).
    rewrite (occurrences_skip "&&" x _ "&" Hx "&" eq_refl).
    inversion Hall as [|? ? [Hy Hynz] _]; subst.
    assert (Hhead : exists a r, String.concat "&&" (y :: conds) = String a r
                                /\ Ascii.eqb a "&" = false).
    { destruct y as [|a y]; [congruence|].
      simpl in Hy. apply orb_false_iff in Hy as [Ha _].
      exists a. destruct conds; simpl; eauto. }
    destruct Hhead as (a & r & Hr & Ha).
    cbn [occurrences append String.prefix].
    rewrite IH. rewrite Hr. cbn [String.prefix].
    destruct (ascii_dec "&" "&") as [_|]; [|congruence].
    destruct (ascii_dec "&" a) as [<-|_]; [discriminate Ha|].
    cbn [List.length]. simpl. lia.
Qed.

End query_builder.







(** ** The traversal *)

Create HintDb quiet.

Section traversal.
Context {W : Type}.
Variable respond : W -> Request -> Response * W.
Variable cfg : Settings.

(** One pass of the loop body: no exchange and no result, or one exchange
    that decides the completion. *)
Lemma fetch_page_cases spinner ep params page acc (st : State W) :
  forall r st', fetch_page respond cfg spinner ep params page acc st = (r, st') ->
  (exchanges st' = exchanges st /\ forall x, r <> Normal x)
  \/ exists rq rs,
       exchanges st' = (exchanges st ++ [(rq, rs)])%list
       /\ match rs with
          | Failed e => r = Threw e
          | Ok data =>
              r = Normal (app acc (page_records data), has_next data)
              \/ exists e, r = Threw e
          end.
Proof.
  intros r st'.
  unfold fetch_page, createClient, requireAuth, page_params, page_items, read, spread,
    http_get, when, console_error, emit, process_exit, bind, ret, throw.
  destruct (truthy (getApiKey cfg)); cbn -[Object_entries define member or_else to_string].
  2:{ intros [= <- <-]. left. split; [reflexivity | discriminate]. }
  destruct (nullish params); cbn -[Object_entries define member or_else to_string].
  { intros [= <- <-]. left. split; [reflexivity | discriminate]. }
  match goal with |- context [respond ?w ?q] =>
    destruct (respond w q) as [rs w'] eqn:Hrs end.
  destruct rs as [data|e]; cbn -[Object_entries define member or_else to_string].
  2:{ intros [= <- <-]. right. eexists _, (Failed e). split; reflexivity. }
  destruct (nullish data) eqn:Hdata; cbn -[Object_entries define member or_else to_string].
  { intros [= <- <-]. right. eexists _, (Ok data). split; [reflexivity|]. right. eauto. }
  unfold page_records, has_next.
  destruct (or_else (member data "results") (VArr [])) eqn:Hres;
    cbn -[Object_entries define member or_else to_string];
    try (intros [= <- <-]; right; eexists _, (Ok data); split; [reflexivity|];
         right; now eauto).
  - destruct spinner; cbn -[Object_entries define member or_else to_string];
      intros [= <- <-]; right; eexists _, (Ok data); (split; [reflexivity|]);
      left; rewrite ?Hres; reflexivity.
  - destruct spinner; cbn -[Object_entries define member or_else to_string];
      intros [= <- <-]; right; eexists _, (Ok data); (split; [reflexivity|]);
      left; rewrite ?Hres; reflexivity.
Qed.

Lemma quiet_ret {A} (a : A) : quiet (@ret W A a).
Proof. intros st. repeat split. discriminate. Qed.

Lemma quiet_throw {A} e : quiet (@throw W A e).
Proof. intros st. repeat split. discriminate. Qed.

Lemma quiet_emit ev : quiet (@emit W ev).
Proof. intros st. repeat split. discriminate. Qed.

Lemma quiet_bind {A B} (m : M W A) (k : A -> M W B) :
  quiet m -> (forall a, quiet (k a)) -> quiet (bind m k).
Proof.
  intros Hm Hk st. unfold bind. specialize (Hm st).
  destruct (m st) as [[a|e|c] st1]; simpl in *.
  - destruct (Hk a st1) as (H1 & H2 & H3). destruct Hm as (H4 & H5 & _).
    repeat split; congruence.
  - destruct Hm as (H1 & H2 & _). repeat split; [exact H1 | exact H2 | discriminate].
  - destruct Hm as (_ & _ & Hx). now destruct (Hx c).
Qed.

Lemma quiet_read v k : quiet (@read W v k).
Proof. unfold read. destruct (nullish v); [apply quiet_throw | apply quiet_ret]. Qed.

Lemma quiet_when b (m : M W unit) : quiet m -> quiet (when b m).
Proof. destruct b; simpl; [tauto | intros _; apply quiet_ret]. Qed.

Lemma quiet_if {A} (b : bool) (m1 m2 : M W A) :
  quiet m1 -> quiet m2 -> quiet (if b then m1 else m2).
Proof. now destruct b. Qed.

Hint Resolve quiet_ret quiet_throw quiet_emit quiet_read quiet_when
  quiet_if : quiet.
Hint Extern 2 (quiet (bind _ _)) => apply quiet_bind; [|intros ?] : quiet.
Hint Extern 1 (quiet (console_error _)) => apply quiet_emit : quiet.
Hint Extern 1 (quiet (console_log _)) => apply quiet_emit : quiet.

(** [handleApiError] writes to the console and then leaves the process. *)
Lemma handleApiError_shape e :
  exists body : M W unit,
    quiet body /\ @handleApiError W e = bind body (fun _ => process_exit 1).
Proof.
  eexists. split; [|reflexivity].
  unfold report_status, report_details. destruct e; auto 20 with quiet.
Qed.

Lemma quiet_handleApiError e (st : State W) :
  exchanges (snd (handleApiError e st)) = exchanges st.
Proof.
  destruct (handleApiError_shape e) as (body & Hq & ->). unfold bind.
  destruct (Hq st) as (H & _). destruct (body st) as [[a|e'|c] st1]; exact H.
Qed.

(** [handleApiError] never returns to its caller: the process exits with
    status 1, unless reading the error's response body throws. *)
Lemma handleApiError_no_return e (st : State W) :
  fst (@handleApiError W e st) = Exited 1
  \/ exists e', fst (@handleApiError W e st) = Threw e'.
Proof.
  destruct (handleApiError_shape e) as (body & Hq & ->). unfold bind.
  destruct (Hq st) as (_ & _ & Hx). destruct (body st) as [[a|e'|c] st1]; simpl in *.
  - now left.
  - right. now exists e'.
  - now destruct (Hx c).
Qed.

Lemma fetch_loop_traversal spinner ep params N :
  forall fuel page more acc (st : State W) r st',
    fetch_loop respond cfg fuel spinner ep params N page more acc st = Some (r, st') ->
    exists xs,
      exchanges st' = (exchanges st ++ xs)%list /\ Traversal N page more acc xs r.
Proof.
  induction fuel as [|fuel IH]; intros page more acc st r st'; simpl;
    destruct (more && (page <=? N)) eqn:Hc; try discriminate.
  - intros [= <- <-]. exists []. rewrite app_nil_r. split; [reflexivity | now constructor].
  - destruct (fetch_page respond cfg spinner ep params page acc st) as [r1 st1] eqn:Hp.
    destruct (fetch_page_cases _ _ _ _ _ _ _ _ Hp) as [[Hx Hn] | (rq & rs & Hx & Hr)].
    + destruct r1 as [[acc1 more1]|e|c].
      * now destruct (Hn (acc1, more1)).
      * intros [= <- <-]. exists []. rewrite app_nil_r. split; [exact Hx|].
        apply T_no_request; [exact Hc | discriminate].
      * intros [= <- <-]. exists []. rewrite app_nil_r. split; [exact Hx|].
        apply T_no_request; [exact Hc | discriminate].
    + destruct rs as [data|e].
      * destruct Hr as [-> | [e ->]].
        -- intros Hl. destruct (IH _ _ _ _ _ _ Hl) as (xs & Hxs & Ht).
           exists ((rq, Ok data) :: xs). split.
           ++ rewrite Hxs, Hx, <- app_assoc. reflexivity.
           ++ now apply T_page.
        -- intros [= <- <-]. exists [(rq, Ok data)]. split; [exact Hx|].
           now apply T_bad_page.
      * subst r1. intros [= <- <-]. exists [(rq, Failed e)]. split; [exact Hx|].
        now apply T_failed.
  - intros [= <- <-]. exists []. rewrite app_nil_r. split; [reflexivity | now constructor].
Qed.

(** The loop is left after at most [maxPages + 1 - page] passes: that much
    fuel is enough, and more changes nothing. *)
Lemma fetch_loop_enough spinner ep params N :
  forall n fuel page more acc (st : State W),
    (Z.to_nat (N + 1 - page) <= n)%nat -> (n <= fuel)%nat ->
    fetch_loop respond cfg fuel spinner ep params N page more acc st
    = fetch_loop respond cfg n spinner ep params N page more acc st
    /\ fetch_loop respond cfg n spinner ep params N page more acc st <> None.
Proof.
  induction n as [|n IH]; intros fuel page more acc st Hn Hf.
  - assert (Hc : more && (page <=? N) = false).
    { destruct (page <=? N) eqn:E; [apply Z.leb_le in E; lia | apply andb_false_r]. }
    destruct fuel; simpl; rewrite Hc; split; (reflexivity || discriminate).
  - destruct fuel as [|fuel]; [lia|]. simpl.
    destruct (more && (page <=? N)) eqn:Hc; [|split; [reflexivity | discriminate]].
    destruct (fetch_page respond cfg spinner ep params page acc st) as [[[acc1 more1]|e|c] st1];
      try (split; [reflexivity | discriminate]).
    apply IH; lia.
Qed.

Lemma Traversal_bound N page more acc xs c :
  Traversal N page more acc xs c ->
  (List.length xs <= Z.to_nat (N + 1 - page))%nat.
Proof.
  induction 1 as [ | page more acc rq data xs c Hc _ IH | page more acc rq e Hc
                   | page more acc rq data e Hc | page more acc c Hc _ ]; simpl; try lia;
    apply andb_true_iff in Hc as [_ Hc]; apply Z.leb_le in Hc; lia.
Qed.

Lemma getAllPages_enough ep params options (st : State W) :
  forall fuel, (Z.to_nat (page_bound options) <= fuel)%nat ->
    getAllPages respond cfg fuel ep params options st
    = getAllPages respond cfg (Z.to_nat (page_bound options)) ep params options st
    /\ getAllPages respond cfg (Z.to_nat (page_bound options)) ep params options st <> None.
Proof.
  intros fuel Hf. unfold getAllPages. fold (page_bound options).
  set (params' := match params with VUndefined => VObj [] | _ => params end).
  set (spinner := match showSpinner options with Some b => b | None => true end).
  destruct (when spinner (emit (SpinnerStart "Fetching all pages...")) st) as [u st0].
  destruct (fetch_loop_enough spinner ep params' (page_bound options)
              (Z.to_nat (page_bound options)) fuel 1 true [] st0) as [He Hn];
    [lia | exact Hf |].
  rewrite He. split; [reflexivity|].
  destruct (fetch_loop respond cfg (Z.to_nat (page_bound options)) spinner ep params'
              (page_bound options) 1 true [] st0) as [[[all|e|c] st1]|];
    [discriminate | discriminate | discriminate | now destruct Hn].
Qed.

Lemma catch_path (spinner : bool) e (st1 : State W) :
  (when spinner (emit (SpinnerFail "Request failed")) ;;;
   handleApiError e ;;; ret VUndefined) st1
  = (after_handler
       (fst (handleApiError e
               (snd (when spinner (emit (SpinnerFail "Request failed")) st1)))),
     snd (handleApiError e
            (snd (when spinner (emit (SpinnerFail "Request failed")) st1)))).
Proof.
  unfold bind. destruct spinner; simpl;
    match goal with |- context [handleApiError e ?s] =>
      destruct (handleApiError e s) as [[?|?|?] ?] end; reflexivity.
Qed.

(** Every completed call of [getAllPages] is a traversal from page 1,
    followed by the spinner's last word and, after an error, by
    [handleApiError]. *)
Lemma getAllPages_traversal fuel ep params options (st : State W) r st' :
  getAllPages respond cfg fuel ep params options st = Some (r, st') ->
  exists xs c,
    exchanges st' = (exchanges st ++ xs)%list
    /\ Traversal (page_bound options) 1 true [] xs c
    /\ match c with
       | Normal all => r = Normal (VArr all)
       | Threw e => reported e r st'
       | Exited code => r = Exited code
       end.
Proof.
  unfold getAllPages. fold (page_bound options).
  set (params' := match params with VUndefined => VObj [] | _ => params end).
  set (spinner := match showSpinner options with Some b => b | None => true end).
  destruct (when spinner (emit (SpinnerStart "Fetching all pages...")) st) as [u st0] eqn:H0.
  assert (Hst0 : exchanges st0 = exchanges st).
  { destruct spinner; simpl in H0; injection H0 as _ <-; reflexivity. }
  destruct (fetch_loop respond cfg fuel spinner ep params' (page_bound options) 1 true [] st0)
    as [[c st1]|] eqn:Hl; [|discriminate].
  destruct (fetch_loop_traversal _ _ _ _ _ _ _ _ _ _ _ Hl) as (xs & Hxs & Ht).
  rewrite Hst0 in Hxs.
  destruct c as [all|e|code].
  - intros H. exists xs, (Normal all).
    assert (r = Normal (VArr all) /\ exchanges st' = exchanges st1) as [-> Hst'].
    { unfold bind in H. destruct spinner; simpl in H; injection H as <- <-; now split. }
    repeat split; [congruence | exact Ht].
  - intros [= H]. rewrite catch_path in H. injection H as <- <-.
    exists xs, (Threw e).
    assert (Hq : exchanges (snd (when spinner (emit (SpinnerFail "Request failed")) st1))
                 = exchanges st1) by (destruct spinner; reflexivity).
    split; [|split; [exact Ht|]].
    + rewrite quiet_handleApiError. congruence.
    + eexists. split; [|split; reflexivity].
      now rewrite quiet_handleApiError.
  - intros [= <- <-]. exists xs, (Exited code). repeat split; assumption.
Qed.

(** *** What a traversal's derivation tells *)

Lemma Traversal_failed N page more acc xs c :
  Traversal N page more acc xs c ->
  forall rq e, In (rq, Failed e) xs ->
    c = Threw e /\ exists front, xs = (front ++ [(rq, Failed e)])%list.
Proof.
  induction 1 as [ | page more acc rq data xs c Hc _ IH | page more acc rq e Hc
                   | page more acc rq data e Hc | page more acc c Hc _ ];
    intros rq' e' Hin; simpl in Hin.
  - contradiction.
  - destruct Hin as [Heq | Hin]; [discriminate Heq|].
    destruct (IH _ _ Hin) as [-> [front ->]].
    split; [reflexivity|]. now exists ((rq, Ok data) :: front).
  - destruct Hin as [[= <- <-] | []]. split; [reflexivity|]. now exists [].
  - destruct Hin as [Heq | []]. discriminate Heq.
  - contradiction.
Qed.

Lemma Traversal_normal N page more acc xs all :
  Traversal N page more acc xs (Normal all) ->
  all = (acc ++ concat (map page_records (bodies xs)))%list
  /\ List.length (bodies xs) = List.length xs.
Proof.
  remember (Normal all) as c eqn:Ec. intros H. revert Ec.
  induction H as [ | page more acc rq data xs c Hc _ IH | page more acc rq e Hc
                   | page more acc rq data e Hc | page more acc c Hc Hn ];
    intros Ec; try discriminate.
  - injection Ec as ->. simpl. now rewrite app_nil_r.
  - destruct (IH Ec) as [-> Hlen]. simpl. rewrite <- app_assoc. now rewrite Hlen.
  - subst c. now destruct (Hn all).
Qed.

Lemma Traversal_normal_nil N page more acc xs all :
  Traversal N page more acc xs (Normal all) ->
  (xs = [] <-> more && (page <=? N) = false).
Proof.
  inversion 1; subst.
  - tauto.
  - split; [discriminate | congruence].
  - match goal with Hn : forall a, Normal _ <> Normal a |- _ => now destruct (Hn all) end.
Qed.

(** After its [i+1]-th page a traversal that returns stops if and only if
    that page carries no continuation marker or the page counter has
    reached the bound. *)
Lemma Traversal_stops N page more acc xs all :
  Traversal N page more acc xs (Normal all) ->
  forall i data, nth_error (bodies xs) i = Some data ->
    (S i = List.length xs <-> (has_next data = false \/ N <= page + Z.of_nat i)).
Proof.
  remember (Normal all) as c eqn:Ec. intros H. revert Ec.
  induction H as [ | page more acc rq data xs c Hc Ht IH | page more acc rq e Hc
                   | page more acc rq data e Hc | page more acc c Hc Hn ];
    intros Ec i d Hi; try discriminate.
  - destruct i; discriminate Hi.
  - subst c. destruct i as [|i]; simpl in Hi |- *.
    + injection Hi as <-.
      pose proof (Traversal_normal_nil _ _ _ _ _ _ Ht) as Hnil.
      rewrite andb_false_iff, Z.leb_gt in Hnil.
      split.
      * intros Hl. assert (xs = []) as Hx by (destruct xs; [reflexivity | discriminate Hl]).
        apply Hnil in Hx. destruct Hx; [left; assumption | right; lia].
      * intros Hs. assert (xs = []) as -> ; [|reflexivity].
        apply Hnil. destruct Hs; [left; assumption | right; lia].
    + pose proof (IH eq_refl i d Hi) as I. split.
      * intros Hl. assert (Hl' : S i = List.length xs) by lia.
        apply I in Hl'. destruct Hl'; [left; assumption | right; lia].
      * intros Hs. assert (Hl' : S i = List.length xs); [|lia].
        apply I. destruct Hs; [left; assumption | right; lia].
  - subst c. destruct i; discriminate Hi.
Qed.

Lemma concat_ordered {A : Type} (pages : list (list A)) :
  forall i j P1 P2, (i < j)%nat ->
    nth_error pages i = Some P1 -> nth_error pages j = Some P2 ->
    exists before between after,
      concat pages = (before ++ P1 ++ between ++ P2 ++ after)%list.
Proof.
  induction pages as [|p pages IH]; intros i j P1 P2 Hij Hi Hj.
  - destruct i; discriminate Hi.
  - destruct j as [|j]; [lia|]. destruct i as [|i]; simpl in Hi, Hj.
    + injection Hi as ->.
      destruct (nth_error_split pages j Hj) as (l1 & l2 & -> & _).
      exists [], (concat l1), (concat l2). simpl.
      now rewrite concat_app.
    + destruct (IH i j P1 P2 ltac:(lia) Hi Hj) as (b & m & a & E).
      exists (p ++ b)%list, m, a. simpl. now rewrite E, <- app_assoc.
Qed.

(** A call that returns a value returns the array of a traversal that
    completed normally. *)
Lemma getAllPages_returns fuel ep params options (st : State W) v st' xs :
  getAllPages respond cfg fuel ep params options st = Some (Normal v, st') ->
  exchanges st' = (exchanges st ++ xs)%list ->
  exists all, v = VArr all /\ Traversal (page_bound options) 1 true [] xs (Normal all).
Proof.
  intros Hrun Hxs.
  destruct (getAllPages_traversal _ _ _ _ _ _ _ Hrun) as (xs' & c & Hxs' & Ht & Hc).
  rewrite Hxs in Hxs'. apply app_inv_head in Hxs'. subst xs'.
  destruct c as [all|e|code].
  - injection Hc as ->. now exists all.
  - destruct Hc as (st1 & _ & Hr & _).
    destruct (handleApiError_no_return e st1) as [Hh | [e' Hh]];
      rewrite Hh in Hr; discriminate Hr.
  - discriminate Hc.
Qed.

End traversal.

(** ** The traversal: the claims *)

(** C1: for every provider, endpoint, parameters and bound [N],
    [getAllPages] with [maxPages = N] completes (any fuel from [N] on gives
    the same completion) after at most [N] exchanges with the provider,
    whatever continuation markers the provider sends; without [maxPages]
    the bound is 10. *)
Theorem C1_getAllPages_bounded {W : Type} (respond : W -> Request -> Response * W)
    (cfg : Settings) (ep : string) (params : value) (spinner : option bool) (N : Z)
    (st : State W) :
  (exists r st' xs,
      (forall fuel, (Z.to_nat N <= fuel)%nat ->
         getAllPages respond cfg fuel ep params
           {| showSpinner := spinner; maxPages := Some N |} st = Some (r, st'))
      /\ exchanges st' = (exchanges st ++ xs)%list
      /\ Z.of_nat (List.length xs) <= Z.max 0 N)
  /\ (forall fuel,
        getAllPages respond cfg fuel ep params
          {| showSpinner := spinner; maxPages := None |} st
        = getAllPages respond cfg fuel ep params
            {| showSpinner := spinner; maxPages := Some 10 |} st).
Proof.
  split; [|reflexivity].
  set (options := {| showSpinner := spinner; maxPages := Some N |}).
  destruct (getAllPages_enough respond cfg ep params options st (Z.to_nat N) (le_n _))
    as [_ Hsome].
  destruct (getAllPages respond cfg (Z.to_nat (page_bound options)) ep params options st)
    as [[r st']|] eqn:Hrun; [|now destruct Hsome].
  destruct (getAllPages_traversal _ _ _ _ _ _ _ _ _ Hrun) as (xs & c & Hxs & Ht & _).
  exists r, st', xs. repeat split.
  - intros fuel Hf.
    destruct (getAllPages_enough respond cfg ep params options st fuel Hf) as [-> _].
    exact Hrun.
  - exact Hxs.
  - apply Traversal_bound in Ht. change (page_bound options) with N in Ht. lia.
Qed.



(** C4 (amended): a traversal that returns stops after a page exactly when
    that page carries no continuation marker or the number of pages fetched
    has reached [maxPages]; an empty page does not by itself stop it.  Over
    three pages of two records each followed by an empty page without
    continuation marker it returns the six records after four exchanges. *)
Theorem C4_getAllPages_stops {W : Type} (respond : W -> Request -> Response * W)
    (cfg : Settings) (fuel : nat) (ep : string) (params : value) (options : PageOptions)
    (st st' : State W) (v : value) (xs : list (Request * Response)) :
  getAllPages respond cfg fuel ep params options st = Some (Normal v, st') ->
  exchanges st' = (exchanges st ++ xs)%list ->
  (forall i data, nth_error (bodies xs) i = Some data ->
     (S i = List.length xs
      <-> (has_next data = false \/ page_bound options <= Z.of_nat (S i))))
  /\ summary (run_of scenario_C no_options)
     = Some (Normal (VArr [record 1; record 2; record 3; record 4; record 5; record 6]),
             4%nat).
Proof.
  intros Hrun Hxs. split; [|reflexivity].
  destruct (getAllPages_returns _ _ _ _ _ _ _ _ _ _ Hrun Hxs) as (all & _ & Ht).
  intros i data Hi.
  rewrite (Traversal_stops _ _ _ _ _ _ Ht i data Hi). split; intros [H|H]; auto; right; lia.
Qed.

Lemma C4_getAllPages_stops_witness :
  match run_of scenario_C no_options with
  | Some (Normal v, st') =>
      forall i data, nth_error (bodies (exchanges st')) i = Some data ->
        (S i = List.length (exchanges st')
         <-> (has_next data = false \/ 10 <= Z.of_nat (S i)))
  | _ => False
  end.
Proof.
  destruct (run_of scenario_C no_options) as [[[v| |] st']|] eqn:Hrun;
    try (vm_compute in Hrun; discriminate Hrun).
  exact (proj1 (C4_getAllPages_stops _ _ _ _ _ no_options _ st' v (exchanges st')
                  Hrun eq_refl)).
Defined.

(** C4, as stated, fails: the first page below is empty, so the
    specification's rule stops after it, but it carries a continuation
    marker and the code fetches a second page. *)
Lemma C4_counterexample :
  match run_of empty_then_more no_options with
  | Some (r, st') =>
      r = Normal (VArr [record 2])
      /\ nth_error (bodies (exchanges st')) 0 = Some (page_body [] true)
      /\ Spec.stops_after 10 1 (page_body [] true) = true
      /\ List.length (exchanges st') = 2%nat
      /\ ~ (forall i data, nth_error (bodies (exchanges st')) i = Some data ->
              (S i = List.length (exchanges st')
               <-> Spec.stops_after 10 (S i) data = true))
  | None => False
  end.
Proof.
  vm_compute run_of. repeat split.
  intros H. specialize (H 0%nat (page_body [] true) eq_refl).
  destruct H as [_ H]. specialize (H eq_refl). discriminate H.
Qed.

(** C5: the array a traversal returns is the concatenation, in the order
    of the exchanges, of the record lists of the pages fetched, each in its
    own order: every fetch was answered by a page, and for pages [P1] fetched
    before [P2] the result reads [... P1's records ... P2's records ...]. *)
Theorem C5_getAllPages_concatenates {W : Type} (respond : W -> Request -> Response * W)
    (cfg : Settings) (fuel : nat) (ep : string) (params : value) (options : PageOptions)
    (st st' : State W) (v : value) (xs : list (Request * Response)) :
  getAllPages respond cfg fuel ep params options st = Some (Normal v, st') ->
  exchanges st' = (exchanges st ++ xs)%list ->
  v = VArr (concat (map page_records (bodies xs)))
  /\ List.length (bodies xs) = List.length xs
  /\ (forall i j P1 P2, (i < j)%nat ->
        nth_error (bodies xs) i = Some P1 -> nth_error (bodies xs) j = Some P2 ->
        exists before between after,
          v = VArr (before ++ page_records P1 ++ between ++ page_records P2 ++ after)%list).
Proof.
  intros Hrun Hxs.
  destruct (getAllPages_returns _ _ _ _ _ _ _ _ _ _ Hrun Hxs) as (all & -> & Ht).
  destruct (Traversal_normal _ _ _ _ _ _ Ht) as [-> Hlen]. simpl.
  repeat split; [exact Hlen|].
  intros i j P1 P2 Hij Hi Hj.
  destruct (concat_ordered (map page_records (bodies xs)) i j
              (page_records P1) (page_records P2) Hij) as (b & m & a & E).
  - now rewrite nth_error_map, Hi.
  - now rewrite nth_error_map, Hj.
  - exists b, m, a. now rewrite E.
Qed.

Lemma C5_getAllPages_concatenates_witness :
  match run_of scenario_C no_options with
  | Some (Normal v, st') => v = VArr (concat (map page_records (bodies (exchanges st'))))
  | _ => False
  end.
Proof.
  destruct (run_of scenario_C no_options) as [[[v| |] st']|] eqn:Hrun;
    try (vm_compute in Hrun; discriminate Hrun).
  exact (proj1 (C5_getAllPages_concatenates _ _ _ _ _ no_options _ st' v (exchanges st')
                  Hrun eq_refl)).
Defined.

(** ** Error reporting and rendering: the claims *)

Lemma with_events_app {W : Type} (st : State W) (a b : list Event) :
  with_events (with_events st a) b = with_events st (a ++ b).
Proof. unfold with_events. simpl. now rewrite app_assoc. Qed.

Lemma emit_with_events {W : Type} (ev : Event) (st : State W) :
  emit ev st = (Normal tt, with_events st [ev]).
Proof. reflexivity. Qed.

(** C9 (amended): for every response with status 401 and a body that is
    neither null nor undefined, [handleApiError] writes the fixed
    "Unauthorized" line and the hint, whatever the body's message and error
    members, and exits with status 1; as for every status, a body with a
    truthy details or validation member adds the "Details" line with that
    member as JSON text, and a body without one adds nothing. *)
Theorem C9_unauthorized_report {W : Type} (data : value) (st : State W) :
  nullish data = false ->
  handleApiError (HttpError 401 data) st
  = (Exited 1,
     with_events st
       ([Err [Styled Red "Unauthorized:";
              Val (VStr "Invalid API key or authentication failed")];
         Err [Styled Yellow "Hint: Check your API key with"; Styled Cyan "codat auth status"]]
        ++ details_lines data))
  /\ (truthy (member data "details") = false ->
      truthy (member data "validation") = false ->
      details_lines data = []).
Proof.
  intros Hdata. split.
  - unfold handleApiError, report_status, report_details, details_lines, read, when,
      console_error, or_else, bind.
    change (401 =? 400) with false. change (401 =? 401) with true. cbv iota.
    rewrite Hdata. unfold emit, ret, process_exit, with_events.
    cbv beta iota. cbn [world exchanges events].
    destruct (truthy (member data "details")) eqn:Hd.
    + rewrite Hd. cbv beta iota. cbn [world exchanges events].
      now rewrite <- !app_assoc.
    + cbv beta iota. cbn [world exchanges events].
      destruct (truthy (member data "validation")) eqn:Hv;
        cbv beta iota; cbn [world exchanges events]; now rewrite <- !app_assoc.
  - intros Hd Hv. unfold details_lines, or_else. now rewrite Hd, Hv.
Qed.

Lemma C9_unauthorized_report_witness :
  handleApiError (HttpError 401 (VObj [("message", VStr "token expired")])) (state0 tt)
  = (Exited 1,
     with_events (state0 tt)
       [Err [Styled Red "Unauthorized:";
             Val (VStr "Invalid API key or authentication failed")];
        Err [Styled Yellow "Hint: Check your API key with"; Styled Cyan "codat auth status"]]).
Proof.
  exact (proj1 (C9_unauthorized_report (VObj [("message", VStr "token expired")])
                  (state0 tt) eq_refl)).
Defined.

(** C9, as stated, fails: a 401 response whose body has a validation member
    gets that member printed on a "Details" line. *)
Lemma C9_counterexample :
  In (Err [Styled Gray (Json.nl ++ "Details:");
           json_arg (VObj [("amount", VStr "must be positive")]) 2])
     (events (snd (handleApiError (HttpError 401 body_with_validation) (state0 tt)))).
Proof. simpl. auto. Qed.

(** C8 (amended): for the empty collection, the table format writes the
    notice "No results found" and nothing else, the json format writes the
    empty array [[]], pretty or not, and the compact format writes
    nothing. *)
Theorem C8_empty_collection {W : Type} (cfg : Settings) (p t : value)
    (f : option (list string)) (c : option (list Column)) (st : State W) :
  formatOutput cfg (VArr [])
    {| format := VStr "table"; pretty := p; fields := f; columns := c; title := t |} st
  = (Normal tt, with_events st [Log [Styled Yellow "No results found"]])
  /\ formatOutput cfg (VArr [])
       {| format := VStr "json"; pretty := p; fields := f; columns := c; title := t |} st
     = (Normal tt, with_events st [Log [Val (VStr "[]")]])
  /\ formatOutput cfg (VArr [])
       {| format := VStr "compact"; pretty := p; fields := f; columns := c; title := t |} st
     = (Normal tt, st).
Proof.
  repeat split.
Qed.

(** C8, as stated, fails: the compact format writes nothing for the empty
    collection, where the table format writes its notice. *)
Lemma C8_counterexample :
  events (snd (formatOutput settings0 (VArr []) (plain_options (VStr "compact")) (state0 tt)))
  = []
  /\ events (snd (formatOutput settings0 (VArr []) (plain_options (VStr "table")) (state0 tt)))
     = [Log [Styled Yellow "No results found"]].
Proof. split; reflexivity. Qed.

(** C10 (amended): for every data value, every options object and every
    stored setting, [formatOutput] with a format string that is not empty
    and is neither "json" nor "compact" renders as [outputTable] does; the
    empty string, like an absent format, selects the stored default format
    instead.  The dispatch rejects no format: the call is always one of the
    three renderers. *)
Theorem C10_unknown_format_is_table {W : Type} (cfg : Settings) (data : value)
    (options : RenderOptions) (name : string) (st : State W) :
  format options = VStr name ->
  name <> "" -> name <> "json" -> name <> "compact" ->
  formatOutput cfg data options st = outputTable data options st
  /\ (forall options' : RenderOptions,
        formatOutput cfg data options' st = outputJson data options' st
        \/ formatOutput cfg data options' st = outputCompact data options' st
        \/ formatOutput cfg data options' st = outputTable data options' st).
Proof.
  intros Hf Hne Hj Hc. split.
  - apply String.eqb_neq in Hne, Hj, Hc.
    unfold formatOutput, or_else. rewrite Hf. unfold truthy. rewrite Hne.
    cbn [negb is_str]. now rewrite Hj, Hc.
  - intros options'. unfold formatOutput.
    destruct (is_str _ "json"); [now left|].
    destruct (is_str _ "compact"); [right; now left | right; now right].
Qed.

Lemma C10_unknown_format_is_table_witness :
  formatOutput settings_json (VArr [record 1]) (plain_options (VStr "tabel")) (state0 tt)
  = outputTable (VArr [record 1]) (plain_options (VStr "tabel")) (state0 tt).
Proof.
  refine (proj1 (C10_unknown_format_is_table settings_json (VArr [record 1])
                   (plain_options (VStr "tabel")) "tabel" (state0 tt) eq_refl _ _ _));
    discriminate.
Defined.

(** C10, as stated, fails: the empty string is neither "json" nor "compact",
    and with json as the stored format it renders as json, not as a table. *)
Lemma C10_counterexample :
  formatOutput settings_json (VArr []) (plain_options (VStr "")) (state0 tt)
  = (Normal tt, with_events (state0 tt) [Log [Val (VStr "[]")]])
  /\ outputTable (VArr []) (plain_options (VStr "")) (state0 tt)
     = (Normal tt, with_events (state0 tt) [Log [Styled Yellow "No results found"]])
  /\ formatOutput settings_json (VArr []) (plain_options (VStr "")) (state0 tt)
     <> outputTable (VArr []) (plain_options (VStr "")) (state0 tt).
Proof. repeat split. discriminate. Qed.

(** ** JSON text: writing, then reading *)

Section json_strings.

Lemma read_string_quote_char (c : ascii) (rest : string) :
  Json.read_string (Json.quote_char c ++ rest)
  = match Json.read_string rest with
    | Some (t, r) => Some (String c t, r)
    | None => None
    end.
Proof.
  destruct c as [[|] [|] [|] [|] [|] [|] [|] [|]]; reflexivity.
Qed.

Lemma read_string_quote_body (s rest : string) :
  Json.read_string (Json.quote_body s ++ dquote ++ rest) = Some (s, rest).
Proof.
  induction s as [|c s IH]; [reflexivity|].
  cbn [Json.quote_body]. rewrite append_assoc, read_string_quote_char.
  now rewrite IH.
Qed.

End json_strings.

Section json_numbers.

Lemma span_digits_uint (d : Decimal.uint) (rest : string) :
  delimited rest ->
  Json.span_digits (NilEmpty.string_of_uint d ++ rest)
  = (NilEmpty.string_of_uint d, rest).
Proof.
  intros Hrest.
  induction d; cbn [NilEmpty.string_of_uint append Json.span_digits];
    try (change (Json.is_digit _) with true; cbv iota; now rewrite IHd).
  destruct rest as [|c rest]; [reflexivity|].
  destruct Hrest as [Hd _]. cbn [Json.span_digits]. now rewrite Hd.
Qed.

Lemma digit_starts_number (c : ascii) :
  Json.is_digit c = true -> starts_number c /\ (nat_of_ascii c =? 45)%nat = false.
Proof.
  destruct c as [[|] [|] [|] [|] [|] [|] [|] [|]]; intros H;
    try discriminate H; repeat split.
Qed.

Lemma uint_head (d : Decimal.uint) :
  d <> Decimal.Nil ->
  exists c r, NilEmpty.string_of_uint d = String c r /\ Json.is_digit c = true.
Proof.
  destruct d; intros H; try (now destruct H); simpl; eauto.
Qed.

Lemma to_int_shape (n : Z) :
  exists d, d <> Decimal.Nil
            /\ (number_to_string n = NilEmpty.string_of_uint d
                \/ number_to_string n = String "-" (NilEmpty.string_of_uint d)).
Proof.
  unfold number_to_string. destruct n as [|p|p]; simpl.
  - exists (Decimal.D0 Decimal.Nil). split; [discriminate | now left].
  - exists (Pos.to_uint p). pose proof (DecimalPos.Unsigned.to_uint_nonnil p) as Hp.
    split; [exact Hp | left]. now destruct (Pos.to_uint p).
  - exists (Pos.to_uint p). pose proof (DecimalPos.Unsigned.to_uint_nonnil p) as Hp.
    split; [exact Hp | right]. now destruct (Pos.to_uint p).
Qed.

Lemma int_of_number_to_string (n : Z) :
  NilZero.int_of_string (number_to_string n) = Some (Z.to_int n).
Proof.
  unfold number_to_string. apply NilZero.isi.
  - destruct n as [|p|p]; simpl; try discriminate.
    intros [= H]. now apply (DecimalPos.Unsigned.to_uint_nonnil p).
  - destruct n as [|p|p]; simpl; try discriminate.
    intros [= H]. now apply (DecimalPos.Unsigned.to_uint_nonnil p).
Qed.

Lemma read_number_token (token rest : string) (n : Z) :
  token = number_to_string n ->
  delimited rest ->
  match rest with
  | String c _ =>
      if ((nat_of_ascii c =? 46) || (nat_of_ascii c =? 101) || (nat_of_ascii c =? 69))%nat
      then None
      else
        match NilZero.int_of_string token with
        | Some d =>
            if (number_to_string (Z.of_int d) =? token)%string
            then Some (Z.of_int d, rest) else None
        | None => None
        end
  | EmptyString =>
      match NilZero.int_of_string token with
      | Some d =>
          if (number_to_string (Z.of_int d) =? token)%string
          then Some (Z.of_int d, rest) else None
      | None => None
      end
  end = Some (n, rest).
Proof.
  intros -> Hrest.
  rewrite int_of_number_to_string, DecimalZ.of_to, String.eqb_refl.
  destruct rest as [|c rest]; [reflexivity|].
  destruct Hrest as (_ & H1 & H2 & H3).
  apply Nat.eqb_neq in H1, H2, H3. now rewrite H1, H2, H3.
Qed.

Lemma read_number_text (n : Z) (rest : string) :
  delimited rest ->
  Json.read_number (number_to_string n ++ rest) = Some (n, rest).
Proof.
  intros Hrest. destruct (to_int_shape n) as (d & Hd & [E | E]).
  - destruct (uint_head d Hd) as (c & r & Hc & Hdig).
    destruct (digit_starts_number c Hdig) as [_ Hminus].
    assert (Hs : number_to_string n ++ rest = String c (r ++ rest))
      by (rewrite E, Hc; reflexivity).
    unfold Json.read_number. rewrite Hs, Hminus, <- Hs, E.
    rewrite (span_digits_uint d rest Hrest).
    apply read_number_token; [now rewrite E | exact Hrest].
  - unfold Json.read_number. rewrite E. cbn [append].
    change (nat_of_ascii "-" =? 45)%nat with true. cbv iota.
    rewrite (span_digits_uint d rest Hrest).
    apply read_number_token; [now rewrite E | exact Hrest].
Qed.

Lemma number_head (n : Z) :
  exists c r, number_to_string n = String c r
              /\ starts_number c.
Proof.
  destruct (to_int_shape n) as (d & Hd & [E | E]).
  - destruct (uint_head d Hd) as (c & r & Hc & Hdig).
    exists c, r. split; [congruence | apply (digit_starts_number c Hdig)].
  - exists "-"%char, (NilEmpty.string_of_uint d). split; [exact E | repeat split].
Qed.

Lemma read_value_number (fuel : nat) (n : Z) (rest : string) :
  delimited rest ->
  Json.read_value (S fuel) (number_to_string n ++ rest) = Some (VNum n, rest).
Proof.
  intros Hrest. destruct (number_head n) as (c & r & E & Hws & H1 & H2 & H3 & H4 & H5 & H6 & _).
  pose proof (read_number_text n rest Hrest) as Hn.
  rewrite E in Hn |- *. cbn [append] in Hn |- *.
  cbn [Json.read_value Json.skip_ws]. rewrite Hws. cbv zeta.
  now rewrite H1, H2, H3, H4, H5, H6, Hn.
Qed.

End json_numbers.

Section json_values.

Lemma is_json_array (items : list value) :
  is_json (VArr items) <-> Forall is_json items.
Proof.
  induction items as [|x items IH]; simpl.
  - split; [constructor | trivial].
  - simpl in IH. rewrite Forall_cons_iff. tauto.
Qed.

Lemma is_json_object (props : list (string * value)) :
  is_json (VObj props)
  <-> NoDup (map fst props) /\ Forall (fun kv => is_json (snd kv)) props.
Proof.
  simpl. apply and_iff_compat_l.
  induction props as [|kv props IH]; simpl.
  - split; [constructor | trivial].
  - rewrite Forall_cons_iff. tauto.
Qed.

(** The text of a value starts with a character that is neither a blank nor
    a closing bracket. *)
Lemma text_head (v : value) :
  exists c r, text v = String c r
              /\ Json.is_ws c = false /\ (nat_of_ascii c =? 93)%nat = false.
Proof.
  destruct v as [| |[|]|n|s|items|props];
    try (do 2 eexists; split; [reflexivity | split; reflexivity]).
  destruct (number_head n) as (c & r & E & Hws & _ & _ & _ & _ & _ & _ & H).
  exists c, r. auto.
Qed.

Lemma delimited_punct (c : ascii) (rest : string) :
  c = ","%char \/ c = "]"%char \/ c = "}"%char -> delimited (String c rest).
Proof.
  intros [-> | [-> | ->]]; simpl; repeat split; discriminate.
Qed.

Lemma read_elements_text (items : list value) :
  items <> [] ->
  Forall reads_back items ->
  forall fuel rest,
    (fold_right (fun x n => S (size x + n)) O items <= fuel)%nat ->
    Json.read_elements fuel (String.concat "," (map text items) ++ String "]" rest)
    = Some (items, rest).
Proof.
  induction items as [|x items IH]; [congruence|]. intros _ Hall fuel rest Hfuel.
  inversion Hall as [|? ? Hx Hitems]; subst.
  cbn [fold_right] in Hfuel. destruct fuel as [|fuel]; [lia|].
  cbn [Json.read_elements]. destruct items as [|y items].
  - cbn [map String.concat].
    rewrite (Hx fuel (String "]" rest)); [reflexivity | lia |].
    apply delimited_punct. auto.
  - change (String.concat "," (map text (x :: y :: items)))
      with (text x ++ "," ++ String.concat "," (map text (y :: items))).
    rewrite append_assoc.
    change (("," ++ String.concat "," (map text (y :: items))) ++ String "]" rest)
      with (String "," (String.concat "," (map text (y :: items)) ++ String "]" rest)).
    rewrite (Hx fuel); [| lia | apply delimited_punct; auto].
    cbn [Json.skip_ws]. change (Json.is_ws ",") with false. cbv iota.
    change (nat_of_ascii "," =? 44)%nat with true. cbv iota.
    rewrite IH; [reflexivity | discriminate | exact Hitems | lia].
Qed.

Lemma read_member_text (fuel : nat) (k : string) (x : value) (tail : string) :
  Json.read_members (S fuel) ((Json.quote k ++ ":" ++ text x) ++ tail)
  = match Json.read_value fuel (text x ++ tail) with
    | Some (v, r3) =>
        match Json.skip_ws r3 with
        | String c' r4 =>
            if (nat_of_ascii c' =? 44)%nat then
              match Json.read_members fuel r4 with
              | Some (ms, rest) => Some ((k, v) :: ms, rest)
              | None => None
              end
            else if (nat_of_ascii c' =? 125)%nat then Some ([(k, v)], r4)
            else None
        | EmptyString => None
        end
    | None => None
    end.
Proof.
  unfold Json.quote. rewrite !append_assoc.
  change (dquote ++ Json.quote_body k ++ dquote ++ ":" ++ text x ++ tail)
    with (String "034" (Json.quote_body k ++ dquote ++ String ":" (text x ++ tail))).
  cbn [Json.read_members Json.skip_ws].
  change (Json.is_ws "034") with false. cbv iota.
  change (nat_of_ascii "034" =? 34)%nat with true. cbv iota.
  rewrite read_string_quote_body. reflexivity.
Qed.

Lemma read_members_text (props : list (string * value)) :
  props <> [] ->
  Forall (fun kv => reads_back (snd kv)) props ->
  forall fuel rest,
    (fold_right (fun kv n => S (size (snd kv) + n)) O props <= fuel)%nat ->
    Json.read_members fuel
      (String.concat "," (map (fun kv => Json.quote (fst kv) ++ ":" ++ text (snd kv)) props)
       ++ String "}" rest)
    = Some (props, rest).
Proof.
  induction props as [|[k x] props IH]; [congruence|]. intros _ Hall fuel rest Hfuel.
  inversion Hall as [|? ? Hx Hprops]; subst. cbn [snd] in Hx.
  cbn [fold_right snd] in Hfuel. destruct fuel as [|fuel]; [lia|].
  destruct props as [|[k' y] props].
  - cbn [map String.concat fst snd]. rewrite read_member_text.
    rewrite (Hx fuel (String "}" rest)); [reflexivity | lia |].
    apply delimited_punct. auto.
  - change (String.concat ","
              (map (fun kv => Json.quote (fst kv) ++ ":" ++ text (snd kv))
                   ((k, x) :: (k', y) :: props)))
      with ((Json.quote k ++ ":" ++ text x) ++ ","
            ++ String.concat ","
                 (map (fun kv => Json.quote (fst kv) ++ ":" ++ text (snd kv))
                      ((k', y) :: props))).
    rewrite (append_assoc (Json.quote k ++ ":" ++ text x)). rewrite read_member_text.
    match goal with |- context [("," ++ ?body) ++ String "}" rest] =>
      change (("," ++ body) ++ String "}" rest) with (String "," (body ++ String "}" rest))
    end.
    rewrite (Hx fuel); [| lia | apply delimited_punct; auto].
    cbn [Json.skip_ws]. change (Json.is_ws ",") with false. cbv iota.
    change (nat_of_ascii "," =? 44)%nat with true. cbv iota.
    rewrite IH; [reflexivity | discriminate | exact Hprops | lia].
Qed.

Lemma define_fresh (k : string) (x : value) (props : list (string * value)) :
  ~ In k (map fst props) -> define k x props = (props ++ [(k, x)])%list.
Proof.
  induction props as [|[k' y] props IH]; simpl; intros Hk; [reflexivity|].
  destruct (String.eqb_spec k' k) as [->|Hne]; [tauto|].
  rewrite IH; tauto.
Qed.

(** Defining the properties of a text one after the other gives them in
    the order of the text when no name comes twice. *)
Lemma fold_define (props : list (string * value)) :
  forall acc,
    NoDup (map fst (acc ++ props)) ->
    fold_left (fun o kv => define (fst kv) (snd kv) o) props acc = (acc ++ props)%list.
Proof.
  induction props as [|[k x] props IH]; intros acc Hnd; simpl.
  - now rewrite app_nil_r.
  - rewrite define_fresh.
    + rewrite IH; rewrite <- app_assoc; [reflexivity | exact Hnd].
    + rewrite map_app in Hnd. simpl in Hnd.
      apply NoDup_remove_2 in Hnd. rewrite in_app_iff in Hnd. tauto.
Qed.

Lemma skip_ws_head (body tail : string) (c : ascii) (r : string) :
  body = String c r -> Json.is_ws c = false ->
  Json.skip_ws (body ++ tail) = String c (r ++ tail).
Proof. intros -> Hws. cbn [append Json.skip_ws]. now rewrite Hws. Qed.

Lemma concat_text_head (x : value) (items : list value) :
  exists c r, String.concat "," (map text (x :: items)) = String c r
              /\ Json.is_ws c = false /\ (nat_of_ascii c =? 93)%nat = false.
Proof.
  destruct (text_head x) as (c & r & E & H).
  destruct items as [|y items].
  - exists c, r. now split.
  - exists c, (r ++ "," ++ String.concat "," (map text (y :: items))).
    split; [|exact H].
    change (String.concat "," (map text (x :: y :: items)))
      with (text x ++ "," ++ String.concat "," (map text (y :: items))).
    now rewrite E.
Qed.

Lemma concat_member_head (kv : string * value) (props : list (string * value)) :
  exists c r,
    String.concat "," (map (fun kv => Json.quote (fst kv) ++ ":" ++ text (snd kv)) (kv :: props))
    = String c r
    /\ Json.is_ws c = false /\ (nat_of_ascii c =? 125)%nat = false.
Proof.
  destruct props as [|kv' props]; do 2 eexists; (split; [reflexivity | split; reflexivity]).
Qed.

(** Reading the text of a value gives the value back, with what followed
    the text. *)
Lemma read_value_text (v : value) : is_json v -> reads_back v.
Proof.
  induction v as [ | |b|n|s|items IH|props IH] using value_ind'; intros Hjson.
  - destruct Hjson.
  - intros [|fuel] rest Hfuel _; [simpl in Hfuel; lia | reflexivity].
  - intros [|fuel] rest Hfuel _; [simpl in Hfuel; lia | now destruct b].
  - intros [|fuel] rest Hfuel Hrest; [simpl in Hfuel; lia|].
    now apply read_value_number.
  - intros [|fuel] rest Hfuel _; [simpl in Hfuel; lia|].
    cbn [text]. unfold Json.quote. rewrite !append_assoc.
    change (dquote ++ Json.quote_body s ++ dquote ++ rest)
      with (String "034" (Json.quote_body s ++ dquote ++ rest)).
    cbn [Json.read_value Json.skip_ws].
    change (Json.is_ws "034") with false. cbv iota zeta.
    change (nat_of_ascii "034") with 34%nat. cbn [Nat.eqb]. cbv iota.
    now rewrite read_string_quote_body.
  - apply is_json_array in Hjson.
    assert (Hall : Forall reads_back items).
    { rewrite Forall_forall in *. auto. }
    intros [|fuel] rest Hfuel _; [simpl in Hfuel; lia|].
    cbn [text size] in *. rewrite !append_assoc. cbn [append].
    cbn [Json.read_value Json.skip_ws].
    change (Json.is_ws "[") with false. cbv iota zeta.
    change (nat_of_ascii "[") with 91%nat. cbn [Nat.eqb]. cbv iota.
    destruct items as [|x items]; [reflexivity|].
    destruct (concat_text_head x items) as (c & r & E & Hws & Hc).
    rewrite (skip_ws_head _ _ c r E Hws), Hc.
    rewrite read_elements_text; [reflexivity | discriminate | exact Hall | lia].
  - apply is_json_object in Hjson. destruct Hjson as [Hnd Hjson].
    assert (Hall : Forall (fun kv => reads_back (snd kv)) props).
    { rewrite Forall_forall in *. auto. }
    intros [|fuel] rest Hfuel _; [simpl in Hfuel; lia|].
    cbn [text size] in *. rewrite !append_assoc. cbn [append].
    cbn [Json.read_value Json.skip_ws].
    change (Json.is_ws "{") with false. cbv iota zeta.
    change (nat_of_ascii "{") with 123%nat. cbn [Nat.eqb]. cbv iota.
    destruct props as [|kv props]; [reflexivity|].
    destruct (concat_member_head kv props) as (c & r & E & Hws & Hc).
    rewrite (skip_ws_head _ _ c r E Hws), Hc.
    rewrite read_members_text; [| discriminate | exact Hall | lia].
    now rewrite (fold_define (kv :: props) []).
Qed.

Lemma members_text (props : list (string * value)) :
  Forall (fun kv => Json.serialize "" "" (snd kv) = Some (text (snd kv))) props ->
  flat_map (fun kv => match kv with
                      | (k, x) =>
                          match Json.serialize "" "" x with
                          | Some t => [Json.quote k ++ ":" ++ "" ++ t]
                          | None => []
                          end
                      end) props
  = map (fun kv => Json.quote (fst kv) ++ ":" ++ text (snd kv)) props.
Proof.
  induction 1 as [|[k x] props Hx _ IHp]; [reflexivity|].
  cbn [flat_map map fst snd] in *. now rewrite Hx, IHp.
Qed.

(** Without [undefined], and with no gap, [JSON.stringify] writes [text]. *)
Lemma serialize_text (v : value) :
  is_json v -> Json.serialize "" "" v = Some (text v).
Proof.
  induction v as [ | |b|n|s|items IH|props IH] using value_ind'; intros Hjson;
    try reflexivity.
  - destruct Hjson.
  - now destruct b.
  - apply is_json_array in Hjson. cbn [Json.serialize text append String.eqb].
    assert (Hmap : map (fun e => match Json.serialize "" "" e with
                                 | Some t => t
                                 | None => "null"
                                 end) items = map text items).
    { apply map_ext_in. intros e He. rewrite Forall_forall in IH, Hjson.
      now rewrite (IH e He (Hjson e He)). }
    rewrite Hmap. now destruct (map text items).
  - apply is_json_object in Hjson. destruct Hjson as [_ Hjson].
    cbn [Json.serialize text append String.eqb].
    rewrite members_text.
    + now destruct props.
    + rewrite Forall_forall in *. auto.
Qed.

Lemma size_elements (items : list value) :
  Forall (fun x => (size x <= String.length (text x))%nat) items ->
  (fold_right (fun x n => S (size x + n)) O items
   <= S (String.length (String.concat "," (map text items))))%nat.
Proof.
  induction 1 as [|x items Hx _ IH]; [simpl; lia|].
  destruct items as [|y items].
  - cbn [fold_right map String.concat]. lia.
  - change (String.concat "," (map text (x :: y :: items)))
      with (text x ++ "," ++ String.concat "," (map text (y :: items))).
    rewrite !length_append. change (String.length ",") with 1%nat.
    cbn [fold_right] in *. lia.
Qed.

Lemma size_members (props : list (string * value)) :
  Forall (fun kv => (size (snd kv) <= String.length (text (snd kv)))%nat) props ->
  (fold_right (fun kv n => S (size (snd kv) + n)) O props
   <= S (String.length
           (String.concat ","
              (map (fun kv => Json.quote (fst kv) ++ ":" ++ text (snd kv)) props))))%nat.
Proof.
  induction 1 as [|[k x] props Hx _ IH]; [simpl; lia|].
  cbn [snd] in Hx. destruct props as [|kv props].
  - cbn [fold_right map String.concat fst snd]. rewrite !length_append. lia.
  - match goal with |- context [String.concat "," (map ?f ((k, x) :: kv :: props))] =>
      change (String.concat "," (map f ((k, x) :: kv :: props)))
        with ((Json.quote k ++ ":" ++ text x) ++ "," ++ String.concat "," (map f (kv :: props)))
    end.
    rewrite !length_append. change (String.length ",") with 1%nat.
    cbn [fold_right snd] in *. lia.
Qed.

(** The fuel [JSON.parse] takes is enough for the text of a value. *)
Lemma size_text (v : value) : (size v <= String.length (text v))%nat.
Proof.
  induction v as [ | |b|n|s|items IH|props IH] using value_ind';
    try (simpl; lia).
  - destruct b; simpl; lia.
  - destruct (number_head n) as (c & r & E & _). cbn [size text]. rewrite E.
    cbn [String.length]. lia.
  - cbn [size text]. rewrite !length_append. pose proof (size_elements items IH).
    change (String.length "[") with 1%nat. change (String.length "]") with 1%nat. lia.
  - cbn [size text]. rewrite !length_append. pose proof (size_members props IH).
    change (String.length "{") with 1%nat. change (String.length "}") with 1%nat. lia.
Qed.

Lemma parse_text (v : value) : is_json v -> Json.parse (text v) = Some v.
Proof.
  intros Hjson. unfold Json.parse.
  pose proof (read_value_text v Hjson (S (String.length (text v))) "") as H.
  rewrite append_empty_r in H. rewrite H; [reflexivity | | exact I].
  pose proof (size_text v). lia.
Qed.

End json_values.


Lemma invoices_A_is_json : is_json invoices_A.
Proof.
  simpl. repeat split;
    repeat (constructor; [simpl; intuition discriminate|]); constructor.
Qed.


(** ** Runs of the scenarios *)

Example endless_provider_is_cut :
  summary (getAllPages (by_page endless) settings0 3 "/companies/c1/data/invoices"
             VUndefined {| showSpinner := Some false; maxPages := Some 3 |} (state0 tt))
  = Some (Normal (VArr [record 1; record 2; record 3]), 3%nat).
Proof. reflexivity. Qed.

Example pretty_is_the_default :
  formatOutput settings0 (VArr [record 1]) (plain_options (VStr "json")) (state0 tt)
  = (Normal tt,
     with_events (state0 tt)
       [Log [Val (VStr ("[" ++ Json.nl ++ "  {" ++ Json.nl ++ "    " ++ dquote ++ "id"
                        ++ dquote ++ ": 1" ++ Json.nl ++ "  }" ++ Json.nl ++ "]"))]]).
Proof. reflexivity. Qed.

Example undefined_is_not_read_back :
  option_map Json.parse (Json.stringify (VArr [VUndefined]) 0) = Some (Some (VArr [VNull])).
Proof. reflexivity. Qed.

(** * Further properties of the code *)

(** ** handleApiError *)

Lemma with_events_nil {W : Type} (st : State W) : with_events st [] = st.
Proof. destruct st. unfold with_events. simpl. now rewrite app_nil_r. Qed.

(** Whatever the status, a response whose body is not null or undefined is
    reported by its status lines and the "Details" line, and the process
    exits with status 1. *)
Lemma handleApiError_lines {W : Type} (status : Z) (data : value) (st : State W) :
  nullish data = false ->
  handleApiError (HttpError status data) st
  = (Exited 1, with_events st (status_lines status data ++ details_lines data)).
Proof.
  intros Hdata.
  assert (Hdetails : forall st1 : State W,
             report_details data st1 = (Normal tt, with_events st1 (details_lines data))).
  { intros st1. unfold report_details, details_lines, read, when, console_error, or_else, bind.
    rewrite Hdata. unfold emit, ret, with_events.
    destruct (truthy (member data "details")) eqn:Hd; run_events.
    - now rewrite Hd.
    - destruct (truthy (member data "validation")) eqn:Hv; run_events;
        [reflexivity | now rewrite app_nil_r; destruct st1]. }
  assert (Hstatus : forall st1 : State W,
             report_status status data st1
             = (Normal tt, with_events st1 (status_lines status data))).
  { intros st1. unfold report_status, status_lines, read, when, console_error, or_else, bind.
    rewrite Hdata. unfold emit, ret, with_events.
    repeat match goal with
           | |- context [if (status =? ?n) then _ else _] => destruct (status =? n)
           | |- context [if (status =? ?a) || (status =? ?b) || (status =? ?c) then _ else _] =>
               destruct ((status =? a) || (status =? b) || (status =? c))
           end;
      run_events; try reflexivity;
      repeat match goal with
             | |- context [truthy ?v] => destruct (truthy v) eqn:?; run_events
             end;
      try reflexivity; now rewrite ?app_nil_r. }
  unfold handleApiError, bind. rewrite Hstatus. cbv iota.
  rewrite Hdetails. cbv iota. unfold process_exit.
  now rewrite with_events_app.
Qed.

Lemma handleApiError_report {W : Type} (e : Error) (st : State W) :
  (forall status data, e = HttpError status data -> nullish data = false) ->
  exists evs,
    handleApiError e st = (Exited 1, with_events st evs)
    /\ evs <> [] /\ forallb is_err evs = true.
Proof.
  intros Hbody. destruct e as [status data| |message].
  - exists (status_lines status data ++ details_lines data)%list.
    split; [apply handleApiError_lines; eauto|].
    assert (Hs : status_lines status data <> []
                 /\ forallb is_err (status_lines status data) = true).
    { unfold status_lines.
      repeat match goal with
             | |- context [if ?b then _ else _] => destruct b
             end; split; (discriminate || reflexivity). }
    assert (Hd : forallb is_err (details_lines data) = true).
    { unfold details_lines. now destruct (truthy _). }
    destruct Hs as [Hne Herr]. split.
    + destruct (status_lines status data); [congruence | discriminate].
    + now rewrite forallb_app, Herr, Hd.
  - exists [Err [Styled Red "Network Error:"; Val (VStr "No response from server")];
            Err [Styled Yellow "Check your internet connection and try again"]].
    split; [|split; [discriminate | reflexivity]].
    unfold handleApiError, console_error, emit, bind, process_exit, with_events.
    run_events. reflexivity.
  - exists [Err [Styled Red "Error:"; Val (VStr message)]].
    split; [reflexivity | split; [discriminate | reflexivity]].
Qed.

(** X1: [handleApiError] never returns and never throws when the response
    body (if any) is not null or undefined: it writes at least one line, on
    the error stream only, makes no exchange with the provider, and exits
    the process with status 1. *)
Theorem handleApiError_exits {W : Type} (e : Error) (st : State W) :
  (forall status data, e = HttpError status data -> nullish data = false) ->
  exists evs,
    handleApiError e st = (Exited 1, with_events st evs)
    /\ evs <> [] /\ forallb is_err evs = true.
Proof. apply handleApiError_report. Qed.

Lemma handleApiError_exits_witness :
  exists evs,
    handleApiError (HttpError 404 (VObj [])) (state0 tt)
    = (Exited 1, with_events (state0 tt) evs)
    /\ evs <> [] /\ forallb is_err evs = true.
Proof.
  refine (handleApiError_exits (HttpError 404 (VObj [])) (state0 tt) _).
  intros status data [= _ <-]. reflexivity.
Defined.

(** X2: a 429 response is reported as rate limited, and when its body
    carries a truthy [Retry-After] member the next line gives that value,
    unchanged, as the seconds to wait; without one, no such line. *)
Theorem rate_limit_carries_retry_after {W : Type} (data : value) (st : State W) :
  nullish data = false ->
  handleApiError (HttpError 429 data) st
  = (Exited 1,
     with_events st
       (Err [Styled Red "Rate Limited:"; Val (VStr "Too many requests. Please try again later.")]
        :: (if truthy (member data "Retry-After")
            then [Err [Styled Yellow ("Retry after: " ++ to_string (member data "Retry-After")
                                      ++ " seconds")]]
            else [])
        ++ details_lines data)).
Proof. intros Hdata. now rewrite handleApiError_lines. Qed.

Lemma rate_limit_carries_retry_after_witness :
  handleApiError (HttpError 429 (VObj [("Retry-After", VNum 30)])) (state0 tt)
  = (Exited 1,
     with_events (state0 tt)
       [Err [Styled Red "Rate Limited:"; Val (VStr "Too many requests. Please try again later.")];
        Err [Styled Yellow "Retry after: 30 seconds"]]).
Proof.
  exact (rate_limit_carries_retry_after (VObj [("Retry-After", VNum 30)]) (state0 tt) eq_refl).
Defined.

(** X3: for status 400 and for every status without a case of its own, the
    line shows the body's [message] when it is truthy, else its [error]
    when that is truthy, else a fixed text; the label is "Bad Request:" for
    400 and "HTTP <status>:" otherwise. *)
Theorem message_precedence {W : Type} (status : Z) (data : value) (st : State W) :
  nullish data = false ->
  status = 400 \/ known_status status = false ->
  handleApiError (HttpError status data) st
  = (Exited 1,
     with_events st
       ([Err [Styled Red (if status =? 400 then "Bad Request:"
                          else "HTTP " ++ number_to_string status ++ ":");
              Val (or_else (member data "message")
                     (or_else (member data "error")
                        (VStr (if status =? 400 then "Invalid request parameters"
                               else "Unknown error"))))]]
        ++ details_lines data)).
Proof.
  intros Hdata Hstatus. rewrite handleApiError_lines by exact Hdata.
  do 2 f_equal. f_equal. unfold status_lines.
  destruct Hstatus as [-> | Hother]; [reflexivity|].
  unfold known_status in Hother.
  repeat (apply orb_false_iff in Hother; destruct Hother as [Hother ?]).
  repeat match goal with H : (status =? _) = false |- _ => rewrite H; clear H end.
  reflexivity.
Qed.

Lemma message_precedence_witness :
  handleApiError
    (HttpError 418 (VObj [("message", VStr ""); ("error", VStr "teapot")])) (state0 tt)
  = (Exited 1,
     with_events (state0 tt) [Err [Styled Red "HTTP 418:"; Val (VStr "teapot")]]).
Proof.
  exact (message_precedence 418 (VObj [("message", VStr ""); ("error", VStr "teapot")])
           (state0 tt) eq_refl (or_intror eq_refl)).
Defined.

(** ** One request, and the requests of a traversal *)

Lemma world_handleApiError {W : Type} (e : Error) (st : State W) :
  world (snd (handleApiError e st)) = world st.
Proof.
  destruct (handleApiError_shape (W:=W) e) as (body & Hq & ->). unfold bind.
  destruct (Hq st) as (_ & H & _). destruct (body st) as [[a|e'|c] st1]; exact H.
Qed.

(** X4: with an API key configured, [get] makes exactly one request, to the
    given endpoint and with the configured base address and key, and never a
    second one: a response in the 2xx range is returned as it is, and an
    error goes to [handleApiError], after which nothing is returned. *)
Theorem get_single_attempt {W : Type} (respond : W -> Request -> Response * W)
    (cfg : Settings) (ep : string) (params : value) (options : Single.Options)
    (st : State W) :
  truthy (getApiKey cfg) = true ->
  exists rq rs r st',
    Single.get respond cfg ep params options st = (r, st')
    /\ respond (world st) rq = (rs, world st')
    /\ exchanges st' = (exchanges st ++ [(rq, rs)])%list
    /\ client rq = client_of cfg /\ endpoint rq = ep
    /\ match rs with
       | Ok data => r = Normal data
       | Failed e => reported e r st' /\ forall v, r <> Normal v
       end.
Proof.
  intros Hkey.
  unfold Single.get, Single.try_catch, createClient, requireAuth.
  set (shown := match Single.showSpinner options with Some b => b | None => true end).
  set (label := match Single.spinnerText options with Some t => t | None => _ end).
  set (query := if nullish _ then [] else Object_entries _).
  unfold bind at 1.
  destruct (when shown (emit (SpinnerStart label)) st) as [c0 st0] eqn:H0.
  assert (Hst0 : c0 = Normal tt /\ exchanges st0 = exchanges st /\ world st0 = world st).
  { destruct shown; simpl in H0; injection H0 as <- <-; now repeat split. }
  destruct Hst0 as (-> & Hx0 & Hw0).
  unfold bind, http_get, console_error, process_exit, ret. rewrite Hkey. cbn [negb].
  cbv beta iota.
  set (rq := {| client := _; endpoint := ep; params := query |}).
  destruct (respond (world st0) rq) as [rs w'] eqn:Hrs. rewrite Hw0 in Hrs.
  destruct rs as [data|e]; cbv beta iota.
  - exists rq, (Ok data), (Normal data).
    destruct shown; cbn; eexists; (split; [reflexivity|]); cbn;
      rewrite Hx0; repeat split; exact Hrs.
  - pose proof (catch_path shown e
                  {| world := w'; exchanges := (exchanges st0 ++ [(rq, Failed e)])%list;
                     events := events st0 |}) as Hcatch.
    unfold bind, ret in Hcatch. rewrite Hcatch.
    set (st1 := snd (when shown (emit (SpinnerFail "Request failed")) _)).
    assert (Hst1 : exchanges st1 = (exchanges st ++ [(rq, Failed e)])%list /\ world st1 = w').
    { subst st1. rewrite <- Hx0. destruct shown; now split. }
    destruct Hst1 as [Hx1 Hw1].
    exists rq, (Failed e). do 2 eexists. split; [reflexivity|].
    rewrite world_handleApiError, quiet_handleApiError, Hw1, Hx1.
    repeat split; try assumption.
    + exists st1. now rewrite quiet_handleApiError.
    + intros v Hv.
      destruct (handleApiError_no_return e st1) as [H | [e' H]]; rewrite H in Hv;
        discriminate Hv.
Qed.

Lemma get_single_attempt_witness :
  exists rq rs r st',
    Single.get (by_page scenario_C) settings0 "/companies" (VObj [("page", VNum 1)])
      Single.no_options (state0 tt) = (r, st')
    /\ by_page scenario_C tt rq = (rs, world st')
    /\ exchanges st' = [(rq, rs)]
    /\ client rq = client_of settings0 /\ endpoint rq = "/companies"
    /\ match rs with
       | Ok data => r = Normal data
       | Failed e => reported e r st' /\ forall v, r <> Normal v
       end.
Proof.
  exact (get_single_attempt (by_page scenario_C) settings0 "/companies"
           (VObj [("page", VNum 1)]) Single.no_options (state0 tt) eq_refl).
Defined.

(** X5: without an API key, in the settings or in the environment, neither
    [get] nor a traversal of at least one page reaches the provider:
    [requireAuth] writes its six lines on the error stream and the process
    exits with status 1; the spinner, if shown, is left running. *)
Theorem no_key_no_request {W : Type} (respond : W -> Request -> Response * W)
    (cfg : Settings) (ep : string) (params : value) (st : State W) :
  truthy (getApiKey cfg) = false ->
  (forall options : Single.Options,
      Single.get respond cfg ep params options st
      = (Exited 1,
         with_events st
           ((if match Single.showSpinner options with Some b => b | None => true end
             then [SpinnerStart match Single.spinnerText options with
                                | Some t => t
                                | None => "Fetching data..."
                                end]
             else []) ++ no_key_lines)))
  /\ (forall (options : PageOptions) (fuel : nat),
         1 <= page_bound options -> (1 <= fuel)%nat ->
         getAllPages respond cfg fuel ep params options st
         = Some (Exited 1,
                 with_events st
                   ((if match showSpinner options with Some b => b | None => true end
                     then [SpinnerStart "Fetching all pages..."]
                     else []) ++ no_key_lines))).
Proof.
  intros Hkey. split.
  - intros options.
    unfold Single.get, Single.try_catch, createClient, requireAuth, bind, console_error,
      emit, process_exit, no_key_lines, with_events.
    rewrite Hkey.
    destruct (match Single.showSpinner options with Some b => b | None => true end);
      cbn [when negb]; unfold emit, ret; run_events; reflexivity.
  - intros options [|fuel] Hbound Hfuel; [lia|].
    unfold getAllPages. fold (page_bound options).
    set (given := match params with VUndefined => VObj [] | _ => params end).
    assert (Hc : (1 <=? page_bound options) = true) by (apply Z.leb_le; lia).
    cbn [fetch_loop andb]. rewrite Hc.
    unfold fetch_page, createClient, requireAuth, bind, console_error,
      emit, process_exit, no_key_lines, with_events.
    rewrite Hkey.
    destruct (match showSpinner options with Some b => b | None => true end);
      cbn [when negb]; unfold emit, ret; run_events; reflexivity.
Qed.

Lemma no_key_no_request_witness :
  Single.get (by_page scenario_C)
    {| apiKey := VStr ""; env_CODAT_API_KEY := VUndefined; baseUrl := VUndefined;
       outputFormat := VUndefined |}
    "/companies" VUndefined {| Single.showSpinner := Some false; Single.spinnerText := None |}
    (state0 tt)
  = (Exited 1, with_events (state0 tt) no_key_lines).
Proof.
  exact (proj1 (no_key_no_request (by_page scenario_C)
                  {| apiKey := VStr ""; env_CODAT_API_KEY := VUndefined;
                     baseUrl := VUndefined; outputFormat := VUndefined |}
                  "/companies" VUndefined (state0 tt) eq_refl)
           {| Single.showSpinner := Some false; Single.spinnerText := None |}).
Defined.

(** X6: with a bound of zero or less, a traversal returns the empty array
    without any request, and without looking for an API key. *)
Theorem no_pages_no_request {W : Type} (respond : W -> Request -> Response * W)
    (cfg : Settings) (fuel : nat) (ep : string) (params : value) (options : PageOptions)
    (st : State W) :
  page_bound options <= 0 ->
  getAllPages respond cfg fuel ep params options st
  = Some (Normal (VArr []),
          with_events st
            (if match showSpinner options with Some b => b | None => true end
             then [SpinnerStart "Fetching all pages..."; SpinnerSucceed "Fetched 0 items"]
             else [])).
Proof.
  intros Hbound. unfold getAllPages. fold (page_bound options).
  assert (Hc : (1 <=? page_bound options) = false) by (apply Z.leb_gt; lia).
  destruct (match showSpinner options with Some b => b | None => true end).
  - cbn [when]. unfold emit at 1. cbv beta iota.
    destruct fuel; cbn [fetch_loop andb]; rewrite Hc;
      unfold bind, emit, ret, with_events; run_events; reflexivity.
  - cbn [when]. unfold ret at 1. cbv beta iota.
    destruct fuel; cbn [fetch_loop andb]; rewrite Hc;
      unfold bind, ret; cbv beta iota; now rewrite with_events_nil.
Qed.

Lemma no_pages_no_request_witness :
  getAllPages (by_page endless) settings0 0 "/companies" VUndefined
    {| showSpinner := Some false; maxPages := Some 0 |} (state0 tt)
  = Some (Normal (VArr []), with_events (state0 tt) []).
Proof.
  refine (no_pages_no_request (by_page endless) settings0 0 "/companies" VUndefined
            {| showSpinner := Some false; maxPages := Some 0 |} (state0 tt) _).
  unfold page_bound. simpl. lia.
Defined.

Lemma app_one_neq {A : Type} (l : list A) (x : A) : l <> (l ++ [x])%list.
Proof.
  intros H. apply (f_equal (@List.length A)) in H. rewrite length_app in H. simpl in H. lia.
Qed.

Lemma fetch_page_request {W : Type} (respond : W -> Request -> Response * W)
    (cfg : Settings) spinner ep given page acc (st : State W) r st' rq rs :
  fetch_page respond cfg spinner ep given page acc st = (r, st') ->
  exchanges st' = (exchanges st ++ [(rq, rs)])%list ->
  rq = page_request cfg ep given page.
Proof.
  unfold fetch_page, createClient, requireAuth, page_params, page_items, read, spread,
    http_get, when, console_error, emit, process_exit, bind, ret, throw.
  destruct (truthy (getApiKey cfg)); cbn -[Object_entries define member or_else to_string].
  2:{ intros [= <- <-] Hx. now destruct (app_one_neq _ _ Hx). }
  destruct (nullish given) eqn:Hgiven; cbn -[Object_entries define member or_else to_string].
  { intros [= <- <-] Hx. now destruct (app_one_neq _ _ Hx). }
  match goal with |- context [respond ?w ?q] =>
    destruct (respond w q) as [rs0 w'] eqn:Hrs end.
  assert (Hone : forall (l : list (Request * Response)) a b,
             (l ++ [a])%list = (l ++ [b])%list -> a = b).
  { intros l a b H. apply app_inv_head in H. now injection H. }
  destruct rs0 as [data|e]; cbn -[Object_entries define member or_else to_string].
  2:{ intros [= <- <-] Hx. apply Hone in Hx. now injection Hx as <- _. }
  destruct (nullish data); cbn -[Object_entries define member or_else to_string].
  { intros [= <- <-] Hx. apply Hone in Hx. now injection Hx as <- _. }
  destruct (or_else (member data "results") (VArr []));
    cbn -[Object_entries define member or_else to_string];
    try (intros [= <- <-] Hx; apply Hone in Hx; now injection Hx as <- _);
    destruct spinner; cbn -[Object_entries define member or_else to_string];
    intros [= <- <-] Hx; apply Hone in Hx; now injection Hx as <- _.
Qed.

Lemma fetch_loop_requests {W : Type} (respond : W -> Request -> Response * W)
    (cfg : Settings) spinner ep given N :
  forall fuel page more acc (st : State W) r st' xs,
    fetch_loop respond cfg fuel spinner ep given N page more acc st = Some (r, st') ->
    exchanges st' = (exchanges st ++ xs)%list ->
    forall i rq rs, nth_error xs i = Some (rq, rs) ->
      rq = page_request cfg ep given (page + Z.of_nat i).
Proof.
  induction fuel as [|fuel IH]; intros page more acc st r st' xs; simpl;
    destruct (more && (page <=? N)) eqn:Hc; try discriminate.
  - intros [= <- <-] Hx i rq rs Hi.
    rewrite <- (app_nil_r (exchanges st)) in Hx at 1. apply app_inv_head in Hx.
    subst xs. destruct i; discriminate Hi.
  - destruct (fetch_page respond cfg spinner ep given page acc st) as [r1 st1] eqn:Hp.
    destruct (fetch_page_cases _ _ _ _ _ _ _ _ _ _ Hp) as [[Hx1 Hn] | (rq1 & rs1 & Hx1 & Hr)].
    + destruct r1 as [[acc1 more1]|e|c]; [now destruct (Hn (acc1, more1)) | |];
        intros [= <- <-] Hx i rq rs Hi; rewrite Hx1 in Hx;
        rewrite <- (app_nil_r (exchanges st)) in Hx at 1; apply app_inv_head in Hx;
        subst xs; destruct i; discriminate Hi.
    + pose proof (fetch_page_request _ _ _ _ _ _ _ _ _ _ _ _ Hp Hx1) as Hrq1.
      assert (Hstop : exchanges st1 = (exchanges st ++ xs)%list ->
                      forall i rq rs, nth_error xs i = Some (rq, rs) ->
                        rq = page_request cfg ep given (page + Z.of_nat i)).
      { intros Hx i rq rs Hi. rewrite Hx1 in Hx. apply app_inv_head in Hx. subst xs.
        destruct i as [|[|i]]; try discriminate Hi. injection Hi as <- _.
        now rewrite Z.add_0_r. }
      destruct r1 as [[acc1 more1]|e|c].
      * intros Hl Hx i rq rs Hi.
        destruct (fetch_loop_traversal _ _ _ _ _ _ _ _ _ _ _ _ _ Hl) as (xs2 & Hx2 & _).
        rewrite Hx2, Hx1, <- app_assoc in Hx. apply app_inv_head in Hx. subst xs.
        destruct i as [|i]; simpl in Hi.
        -- injection Hi as <- _. now rewrite Z.add_0_r.
        -- rewrite (IH _ _ _ _ _ _ _ Hl Hx2 i rq rs Hi). f_equal. lia.
      * intros [= <- <-]. exact Hstop.
      * intros [= <- <-]. exact Hstop.
  - intros [= <- <-] Hx i rq rs Hi.
    rewrite <- (app_nil_r (exchanges st)) in Hx at 1. apply app_inv_head in Hx.
    subst xs. destruct i; discriminate Hi.
Qed.

Lemma lookup_define_same (k : string) (x : value) (props : list (string * value)) :
  lookup k (define k x props) = Some x.
Proof.
  induction props as [|[k' y] props IH]; simpl.
  - now rewrite String.eqb_refl.
  - destruct (k' =? k)%string eqn:E; simpl; now rewrite E.
Qed.

Lemma lookup_define_other (k k' : string) (x : value) (props : list (string * value)) :
  k <> k' -> lookup k' (define k x props) = lookup k' props.
Proof.
  intros Hne. induction props as [|[k0 y] props IH]; simpl.
  - apply String.eqb_neq in Hne. now rewrite Hne.
  - destruct (k0 =? k)%string eqn:E; simpl.
    + apply String.eqb_eq in E. subst k0.
      apply String.eqb_neq in Hne. now rewrite Hne.
    + now rewrite IH.
Qed.

(** X7: the requests of a traversal go to the given endpoint with page
    numbers 1, 2, 3, ... in this order; each carries [pageSize], the
    caller's when truthy and 100 otherwise, and every other parameter of the
    caller unchanged. *)
Theorem getAllPages_requests {W : Type} (respond : W -> Request -> Response * W)
    (cfg : Settings) (fuel : nat) (ep : string) (given : value) (options : PageOptions)
    (st st' : State W) (r : Completion value) (xs : list (Request * Response)) :
  getAllPages respond cfg fuel ep given options st = Some (r, st') ->
  exchanges st' = (exchanges st ++ xs)%list ->
  forall i rq rs, nth_error xs i = Some (rq, rs) ->
    let caller := Object_entries match given with VUndefined => VObj [] | _ => given end in
    endpoint rq = ep
    /\ client rq = client_of cfg
    /\ lookup "page" (params rq) = Some (VNum (Z.of_nat i + 1))
    /\ lookup "pageSize" (params rq)
       = Some (match lookup "pageSize" caller with
               | Some size => or_else size (VNum 100)
               | None => VNum 100
               end)
    /\ forall k, k <> "page" -> k <> "pageSize" -> lookup k (params rq) = lookup k caller.
Proof.
  intros Hrun Hxs i rq rs Hi.
  unfold getAllPages in Hrun. fold (page_bound options) in Hrun.
  set (params' := match given with VUndefined => VObj [] | _ => given end) in *.
  set (spinner := match showSpinner options with Some b => b | None => true end) in *.
  destruct (when spinner (emit (SpinnerStart "Fetching all pages...")) st) as [u st0] eqn:H0.
  assert (Hst0 : exchanges st0 = exchanges st).
  { destruct spinner; simpl in H0; injection H0 as _ <-; reflexivity. }
  destruct (fetch_loop respond cfg fuel spinner ep params' (page_bound options) 1 true [] st0)
    as [[c st1]|] eqn:Hl; [|discriminate].
  assert (Hst1 : exchanges st' = exchanges st1).
  { destruct c as [all|e|code].
    - unfold bind in Hrun. destruct spinner; simpl in Hrun; now injection Hrun as _ <-.
    - injection Hrun as Hrun. rewrite catch_path in Hrun. injection Hrun as _ <-.
      rewrite quiet_handleApiError. now destruct spinner.
    - now injection Hrun as _ <-. }
  rewrite Hst1, <- Hst0 in Hxs.
  pose proof (fetch_loop_requests _ _ _ _ _ _ _ _ _ _ _ _ _ _ Hl Hxs i rq rs Hi) as ->.
  assert (Hparams : nullish params' = false).
  { destruct (nullish params') eqn:Hn; [|reflexivity]. exfalso.
    destruct fuel as [|fuel]; simpl in Hl; destruct (1 <=? page_bound options);
      try discriminate Hl.
    - injection Hl as _ <-. rewrite <- (app_nil_r (exchanges st0)) in Hxs at 1.
      apply app_inv_head in Hxs. subst xs. destruct i; discriminate Hi.
    - unfold fetch_page, createClient, requireAuth, page_params, read, bind, console_error,
        emit, process_exit, ret, throw in Hl.
      rewrite Hn in Hl.
      destruct (truthy (getApiKey cfg)); cbn -[Object_entries define member or_else to_string] in Hl;
        injection Hl as _ <-; cbn [exchanges] in Hxs;
        rewrite <- (app_nil_r (exchanges st0)) in Hxs at 1;
        apply app_inv_head in Hxs; subst xs; destruct i; discriminate Hi.
    - injection Hl as _ <-. rewrite <- (app_nil_r (exchanges st0)) in Hxs at 1.
      apply app_inv_head in Hxs. subst xs. destruct i; discriminate Hi. }
  unfold page_request. cbn [endpoint client params]. repeat split.
  - rewrite lookup_define_other by discriminate. rewrite lookup_define_same.
    do 2 f_equal. lia.
  - rewrite lookup_define_same. f_equal.
    destruct params'; try discriminate Hparams; cbn [member Object_entries lookup]; try reflexivity.
    + destruct (lookup "pageSize" (indexed_from 0 (chars s))); reflexivity.
    + destruct (lookup "pageSize" (indexed_from 0 items)); reflexivity.
    + destruct (lookup "pageSize" props); reflexivity.
  - intros k Hp Hs. now rewrite !lookup_define_other by congruence.
Qed.

Lemma getAllPages_requests_witness :
  match getAllPages (by_page scenario_C) settings0 10 "/companies/c1/data/invoices"
          (VObj [("query", VStr "status=Paid"); ("pageSize", VNum 2)]) no_options (state0 tt)
  with
  | Some (_, st') =>
      match nth_error (exchanges st') 2 with
      | Some (rq, _) =>
          lookup "page" (params rq) = Some (VNum 3)
          /\ lookup "pageSize" (params rq) = Some (VNum 2)
          /\ lookup "query" (params rq) = Some (VStr "status=Paid")
      | None => False
      end
  | None => False
  end.
Proof.
  destruct (getAllPages (by_page scenario_C) settings0 10 "/companies/c1/data/invoices"
              (VObj [("query", VStr "status=Paid"); ("pageSize", VNum 2)]) no_options
              (state0 tt)) as [[r st']|] eqn:Hrun;
    [|vm_compute in Hrun; discriminate Hrun].
  destruct (nth_error (exchanges st') 2) as [[rq rs]|] eqn:Hi.
  - destruct (getAllPages_requests _ _ _ _ _ _ _ st' r (exchanges st') Hrun eq_refl
                2%nat rq rs Hi) as (_ & _ & Hpage & Hsize & Hother).
    repeat split; [exact Hpage | exact Hsize | apply Hother; discriminate].
  - vm_compute in Hrun. injection Hrun as _ <-. discriminate Hi.
Defined.

(** ** The query builder and the renderer's helpers *)

Lemma concat_not_empty (sep x : string) (l : list string) :
  x <> "" -> String.concat sep (x :: l) <> "".
Proof.
  intros Hx. destruct l; simpl; [exact Hx|].
  destruct x; [congruence | discriminate].
Qed.

Lemma kept_idempotent (props : list (string * value)) : kept (kept props) = kept props.
Proof.
  unfold kept. induction props as [|[k v] props IH]; simpl; [reflexivity|].
  destruct (nullish v) eqn:E; simpl; [exact IH | now rewrite E, IH].
Qed.

(** X8: filter entries whose value is null or undefined change nothing:
    the query of an object is the query of its other entries, and it is the
    empty string exactly when there is no other entry. *)
Theorem buildQuery_ignores_unset (props : list (string * value)) :
  buildQuery (VObj props) = buildQuery (VObj (kept props))
  /\ (buildQuery (VObj props) = "" <-> kept props = []).
Proof.
  rewrite !buildQuery_object, kept_idempotent. split; [reflexivity|].
  destruct (kept props) as [|entry entries]; [tauto|].
  split; [|discriminate]. intros H. exfalso.
  exact (concat_not_empty "&&" (condition entry) (map condition entries)
           (condition_not_empty entry) H).
Qed.

Lemma split_on_not_nil (sep : ascii) (s : string) : split_on sep s <> [].
Proof.
  induction s as [|c s IH]; simpl; [discriminate|].
  destruct (Ascii.eqb c sep); [discriminate|].
  destruct (split_on sep s); [congruence | discriminate].
Qed.

Lemma split_on_join (sep : ascii) (a b : string) :
  split_on sep (a ++ String sep b) = (split_on sep a ++ split_on sep b)%list.
Proof.
  induction a as [|c a IH]; simpl.
  - now rewrite Ascii.eqb_refl.
  - destruct (Ascii.eqb c sep); [now rewrite IH|].
    rewrite IH. pose proof (split_on_not_nil sep a) as Hne.
    destruct (split_on sep a); [congruence | reflexivity].
Qed.

(** X9: a dotted path is resolved member by member: resolving [a.b] is
    resolving [b] in what [a] resolves to. *)
Theorem getNestedValue_composes (obj : value) (a b : string) :
  getNestedValue obj (a ++ "." ++ b) = getNestedValue (getNestedValue obj a) b.
Proof.
  unfold getNestedValue. change ("." ++ b) with (String "."%char b).
  now rewrite split_on_join, fold_left_app.
Qed.

Lemma fold_opt_member_undefined (keys : list string) :
  fold_left opt_member keys VUndefined = VUndefined.
Proof. induction keys; simpl; auto. Qed.

Lemma getNestedValue_nullish (v : value) (path : string) :
  nullish v = true -> getNestedValue v path = VUndefined.
Proof.
  intros Hv. unfold getNestedValue.
  pose proof (split_on_not_nil "."%char path) as Hne.
  destruct (split_on "."%char path) as [|k keys]; [congruence|].
  simpl. unfold opt_member at 2. rewrite Hv. apply fold_opt_member_undefined.
Qed.

(** X10: resolution fails closed: from null or undefined every path gives
    undefined, and so does every path that continues through a member that
    is missing or null. *)
Theorem getNestedValue_fails_closed (obj : value) (a b : string) :
  nullish (getNestedValue obj a) = true ->
  getNestedValue obj (a ++ "." ++ b) = VUndefined
  /\ (nullish obj = true -> getNestedValue obj a = VUndefined).
Proof.
  intros Hnull. split.
  - rewrite getNestedValue_composes. now apply getNestedValue_nullish.
  - intros Hobj. now apply getNestedValue_nullish.
Qed.

Lemma getNestedValue_fails_closed_witness :
  getNestedValue (VObj [("customerRef", VNull)]) ("customerRef" ++ "." ++ "companyName")
  = VUndefined.
Proof.
  exact (proj1 (getNestedValue_fails_closed (VObj [("customerRef", VNull)])
                  "customerRef" "companyName" eq_refl)).
Defined.

Lemma lookup_in (props : list (string * value)) :
  NoDup (map fst props) ->
  forall k v, In (k, v) props -> lookup k props = Some v.
Proof.
  induction props as [|[k0 v0] props IH]; intros Hnd k v Hin; [destruct Hin|].
  simpl in Hnd. inversion Hnd as [|? ? Hnotin Hnd']; subst.
  simpl. destruct Hin as [[= <- <-] | Hin].
  - now rewrite String.eqb_refl.
  - destruct (String.eqb_spec k0 k) as [->|Hne]; [|now apply IH].
    exfalso. apply Hnotin. apply in_map_iff. now exists (k, v).
Qed.

Lemma filter_keys (f : string -> bool) (g : string * value -> bool)
    (props : list (string * value)) :
  (forall kv, In kv props -> f (fst kv) = g kv) ->
  filter f (map fst props) = map fst (filter g props).
Proof.
  induction props as [|kv props IH]; intros H; [reflexivity|].
  simpl. rewrite <- (H kv (or_introl eq_refl)).
  destruct (f (fst kv)); simpl; rewrite IH; auto; intros; apply H; now right.
Qed.

(** X11: the columns inferred from an object are its keys, in their order,
    except those whose value is a nested object; keys with array, null or
    primitive values stay.  From anything but an object or an array the one
    column is "value". *)
Theorem inferColumns_skips_nested_objects (props : list (string * value)) :
  NoDup (map fst props) ->
  inferColumns (VObj props)
  = map fst (filter (fun kv => match snd kv with VObj _ => false | _ => true end) props)
  /\ (forall v, typeof_object v = false \/ truthy v = false -> inferColumns v = ["value"]).
Proof.
  intros Hnd. split.
  - unfold inferColumns, Object_keys. cbn [truthy typeof_object negb orb Object_entries].
    apply filter_keys. intros [k v] Hin. cbn [fst snd member].
    rewrite (lookup_in props Hnd k v Hin). now destruct v.
  - intros v [Hv | Hv]; unfold inferColumns; rewrite Hv; [|reflexivity].
    now rewrite orb_true_r.
Qed.

Lemma inferColumns_skips_nested_objects_witness :
  inferColumns (VObj [("id", VNum 1); ("customerRef", VObj [("id", VStr "c")]);
                      ("lineItems", VArr []); ("note", VNull)])
  = ["id"; "lineItems"; "note"].
Proof.
  refine (proj1 (inferColumns_skips_nested_objects
                   [("id", VNum 1); ("customerRef", VObj [("id", VStr "c")]);
                    ("lineItems", VArr []); ("note", VNull)] _)).
  repeat (constructor; [simpl; intuition discriminate|]). constructor.
Defined.

Lemma substring_length (m : nat) (s : string) :
  String.length (String.substring 0 m s) = Nat.min m (String.length s).
Proof.
  revert s. induction m as [|m IH]; intros [|c s]; simpl; auto.
Qed.

(** X12: a string of at most 50 characters is shown as it is; a longer one
    is cut to its first 47 characters followed by three dots, 50 characters
    in all. *)
Theorem formatValue_truncates (s : string) :
  exists shown,
    formatValue (VStr s) = Plain shown
    /\ (String.length shown <= 50)%nat
    /\ ((String.length s <= 50)%nat -> shown = s)
    /\ ((50 < String.length s)%nat ->
        shown = String.substring 0 47 s ++ "..." /\ String.length shown = 50%nat).
Proof.
  unfold formatValue. destruct (50 <? String.length s)%nat eqn:E.
  - apply Nat.ltb_lt in E. eexists. split; [reflexivity|].
    assert (Hlen : String.length (String.substring 0 47 s ++ "...") = 50%nat).
    { rewrite length_append, substring_length. simpl String.length. lia. }
    repeat split; first [lia | exact Hlen].
  - apply Nat.ltb_ge in E. exists s. repeat split; try lia.
Qed.



Lemma for_each_lines {W A : Type} (line : A -> list Arg) (items : list A) :
  forall st : State W,
    for_each (fun item => console_log (line item)) items st
    = (Normal tt, with_events st (map (fun item => Log (line item)) items)).
Proof.
  induction items as [|item items IH]; intros st; simpl.
  - unfold ret. now rewrite with_events_nil.
  - unfold bind, console_log at 1, emit. cbv iota. rewrite IH.
    unfold with_events. cbn [world exchanges events map]. now rewrite <- app_assoc.
Qed.


(** ** Settings and keys *)

(** X15: [setOutputFormat] accepts exactly "table", "json" and "compact":
    any other value is refused with an Error and nothing is stored; an
    accepted format is what [getOutputFormat] then returns, the other
    settings stay, and a rendering without a format of its own uses it. *)
Theorem setOutputFormat_validates (cfg : Settings) (format : value) :
  match Store.setOutputFormat cfg format with
  | inl cfg' =>
      Store.known_format format = true
      /\ getOutputFormat cfg' = format
      /\ getApiKey cfg' = getApiKey cfg /\ getBaseUrl cfg' = getBaseUrl cfg
      /\ forall (W : Type) (data : value) (options : RenderOptions) (st : State W),
           truthy (Output.format options) = false ->
           formatOutput cfg' data options st
           = if is_str format "json" then outputJson data options st
             else if is_str format "compact" then outputCompact data options st
             else outputTable data options st
  | inr e =>
      Store.known_format format = false
      /\ e = OtherError "Invalid output format. Must be: table, json, or compact"
  end.
Proof.
  unfold Store.setOutputFormat.
  destruct (Store.known_format format) eqn:Hknown; cbn [negb]; [|now split].
  assert (Htruthy : truthy format = true).
  { unfold Store.known_format in Hknown. destruct format; try discriminate Hknown.
    destruct s; [discriminate Hknown | reflexivity]. }
  split; [reflexivity|]. split.
  - unfold getOutputFormat, or_else. cbn [outputFormat]. now rewrite Htruthy.
  - repeat split. intros W data options st Hformat.
    unfold formatOutput, getOutputFormat, or_else. cbn [outputFormat].
    rewrite Hformat, Htruthy.
    now destruct (is_str format "json"), (is_str format "compact").
Qed.

(** X16: [auth set-key] stores a key only when it has at least 20
    characters.  A shorter one is refused on the error stream and the
    process exits with status 1; an accepted one becomes the key of every
    later request, whatever the environment holds. *)
Theorem set_key_stores_valid_keys_only {W : Type} (cfg : Settings) (key : string)
    (st : State W) :
  if (20 <=? String.length key)%nat then
    Commands.set_key cfg key st
    = (Normal (Store.setApiKey cfg key),
       with_events st [Log [Styled Green "✓"; Val (VStr "API key saved successfully")]])
    /\ getApiKey (Store.setApiKey cfg key) = VStr key
    /\ Store.isConfigured (Store.setApiKey cfg key) = true
    /\ forall st2 : State W,
         requireAuth (Store.setApiKey cfg key) st2 = (Normal (VStr key), st2)
  else
    Commands.set_key cfg key st
    = (Exited 1, with_events st [Err [Styled Red "✗"; Val (VStr "Invalid API key format")]]).
Proof.
  destruct (20 <=? String.length key)%nat eqn:Hlen.
  - assert (Htruthy : truthy (VStr key) = true).
    { destruct key; [discriminate Hlen | reflexivity]. }
    assert (Hkey : getApiKey (Store.setApiKey cfg key) = VStr key).
    { unfold getApiKey, Store.setApiKey, or_else. cbn [apiKey].
      rewrite Htruthy. cbv iota. now rewrite Htruthy. }
    repeat split.
    + unfold Commands.set_key, Keys.validateApiKeyFormat. rewrite Htruthy.
      cbn [negb is_string]. rewrite Hlen. reflexivity.
    + exact Hkey.
    + unfold Store.isConfigured. now rewrite Hkey.
    + intros st2. unfold requireAuth. rewrite Hkey, Htruthy. reflexivity.
  - unfold Commands.set_key, Keys.validateApiKeyFormat.
    destruct (truthy (VStr key)) eqn:Htruthy; cbn [negb is_string].
    + rewrite Hlen. reflexivity.
    + rewrite Htruthy. reflexivity.
Qed.

(** X17: [auth login] without a key, or with the empty string, only prints
    the instructions and leaves the settings; with a key it stores it only
    when it has at least 20 characters, and exits with status 1 otherwise.
    It never reaches the provider. *)
Theorem login_stores_valid_keys_only {W : Type} (cfg : Settings) (path : string)
    (apiKey : option string) (st : State W) :
  exists evs,
    Commands.login cfg path apiKey st
    = (match apiKey with
       | None => Normal cfg
       | Some key =>
           if (key =? "")%string then Normal cfg
           else if (20 <=? String.length key)%nat then Normal (Store.setApiKey cfg key)
                else Exited 1
       end,
       with_events st evs)
    /\ evs <> [].
Proof.
  unfold Commands.login, Keys.validateApiKeyFormat, Messages.error, Messages.success.
  destruct apiKey as [key|].
  - cbn [truthy]. destruct (key =? "")%string eqn:Hempty; cbn [negb is_string].
    + unfold console_log, console_error, emit, bind, ret, with_events. run_events.
      eexists. split; [reflexivity | discriminate].
    + destruct (20 <=? String.length key)%nat; cbn [negb truthy];
        unfold console_log, console_error, emit, bind, ret, process_exit, with_events;
        run_events; eexists; (split; [reflexivity | discriminate]).
  - unfold console_log, console_error, emit, bind, ret, with_events. run_events.
    eexists. split; [reflexivity | discriminate].
Qed.

Lemma getApiKey_cases (cfg : Settings) :
  getApiKey cfg
  = if truthy (apiKey cfg) then apiKey cfg
    else if truthy (env_CODAT_API_KEY cfg) then env_CODAT_API_KEY cfg else VNull.
Proof.
  unfold getApiKey, or_else.
  destruct (truthy (apiKey cfg)) eqn:Hs; cbv iota; rewrite ?Hs; [reflexivity|].
  destruct (truthy (env_CODAT_API_KEY cfg)) eqn:He; cbv iota; rewrite ?He; reflexivity.
Qed.

(** X18: after [auth logout] the stored key is gone: the key that is left is
    the one of the environment, if any, so that a key in the environment
    still authenticates.  Nothing else of the environment changes and no
    request is made. *)
Theorem logout_keeps_environment_key {W : Type} (cfg : Settings) (st : State W) :
  exists cfg' evs,
    Commands.logout cfg st = (Normal cfg', with_events st evs)
    /\ getApiKey cfg' = or_else (env_CODAT_API_KEY cfg) VNull
    /\ Store.isConfigured cfg' = truthy (env_CODAT_API_KEY cfg)
    /\ env_CODAT_API_KEY cfg' = env_CODAT_API_KEY cfg.
Proof.
  unfold Commands.logout, Store.isConfigured, Messages.info, Messages.success.
  destruct (truthy (getApiKey cfg)) eqn:Hkey; cbn [negb].
  - exists (Store.clearConfig cfg). eexists. split.
    + unfold console_log, emit, bind, ret, with_events. run_events. reflexivity.
    + rewrite getApiKey_cases. unfold Store.clearConfig, or_else. cbn.
      destruct (truthy (env_CODAT_API_KEY cfg)) eqn:Henv; repeat split; assumption.
  - exists cfg. eexists. split; [reflexivity|].
    rewrite getApiKey_cases in Hkey |- *. unfold or_else.
    destruct (truthy (apiKey cfg)) eqn:Hstored; [congruence|].
    destruct (truthy (env_CODAT_API_KEY cfg)) eqn:Henv; [congruence|].
    now repeat split.
Qed.

Lemma substring_length_from (n m : nat) (s : string) :
  String.length (String.substring n m s) = Nat.min m (String.length s - n).
Proof.
  revert s. induction n as [|n IH]; intros s.
  - rewrite substring_length. now rewrite Nat.sub_0_r.
  - destruct s as [|c s]; simpl.
    + now rewrite Nat.min_0_r.
    + apply IH.
Qed.

(** X19: the masked form of a key shows none of a key shorter than 8
    characters and, of a longer one, only the first four and the last four
    characters around three stars: it is never longer than 11 characters. *)
Theorem maskApiKey_hides (s : string) :
  (String.length (Keys.maskApiKey (Some s)) <= 11)%nat
  /\ ((String.length s < 8)%nat -> Keys.maskApiKey (Some s) = "***")
  /\ ((8 <= String.length s)%nat ->
      Keys.maskApiKey (Some s)
      = String.substring 0 4 s ++ "***" ++ String.substring (String.length s - 4) 4 s
      /\ String.length (Keys.maskApiKey (Some s)) = 11%nat).
Proof.
  unfold Keys.maskApiKey. cbn [truthy].
  destruct (s =? "")%string eqn:Hempty; cbn [negb orb].
  - apply String.eqb_eq in Hempty. subst s.
    split; [simpl; lia|]. split; [reflexivity|].
    intros Hge. simpl in Hge. lia.
  - destruct (String.length s <? 8)%nat eqn:Hlen.
    + apply Nat.ltb_lt in Hlen.
      split; [simpl; lia|]. split; [reflexivity|].
      intros Hge. lia.
    + apply Nat.ltb_ge in Hlen.
      assert (H11 : String.length (String.substring 0 4 s ++ "***"
                                   ++ String.substring (String.length s - 4) 4 s) = 11%nat).
      { rewrite !length_append, substring_length, substring_length_from.
        change (String.length "***") with 3%nat. lia. }
      cbv zeta. repeat split; first [lia | exact H11].
Qed.

(** ** JSON text: no control character, and any indentation *)

Lemma printable_app (a b : string) : printable (a ++ b) = printable a && printable b.
Proof. induction a as [|c a IH]; simpl; [reflexivity | now rewrite IH, andb_assoc]. Qed.

Lemma printable_concat (sep : string) (l : list string) :
  printable sep = true -> Forall (fun s => printable s = true) l ->
  printable (String.concat sep l) = true.
Proof.
  intros Hsep. induction 1 as [|x l Hx Hl IH]; [reflexivity|].
  destruct l as [|y l]; [exact Hx|].
  change (String.concat sep (x :: y :: l)) with (x ++ sep ++ String.concat sep (y :: l)).
  now rewrite !printable_app, Hx, Hsep, IH.
Qed.

Lemma printable_quote_char (c : ascii) : printable (Json.quote_char c) = true.
Proof. destruct c as [[|] [|] [|] [|] [|] [|] [|] [|]]; reflexivity. Qed.

Lemma printable_quote (s : string) : printable (Json.quote s) = true.
Proof.
  unfold Json.quote. rewrite !printable_app. cbn [printable dquote].
  assert (H : printable (Json.quote_body s) = true).
  { induction s as [|c s IH]; [reflexivity|].
    cbn [Json.quote_body]. now rewrite printable_app, printable_quote_char, IH. }
  now rewrite H.
Qed.

Lemma printable_number (n : Z) : printable (number_to_string n) = true.
Proof.
  assert (H : forall d, printable (NilEmpty.string_of_uint d) = true)
    by (induction d; simpl; auto).
  destruct (to_int_shape n) as (d & _ & [-> | ->]); [apply H|].
  cbn [printable]. now rewrite H.
Qed.

Lemma serialize_printable (v : value) :
  forall s, Json.serialize "" "" v = Some s -> printable s = true.
Proof.
  induction v as [ | |b|n|s0|items IH|props IH] using value_ind'; intros s.
  - discriminate.
  - now intros [= <-].
  - destruct b; now intros [= <-].
  - intros [= <-]. apply printable_number.
  - intros [= <-]. apply printable_quote.
  - cbn [Json.serialize append String.eqb]. intros [= <-].
    set (partial := map _ items).
    assert (Hall : Forall (fun t => printable t = true) partial).
    { subst partial. apply Forall_map. eapply Forall_impl; [|exact IH].
      intros e He. destruct (Json.serialize "" "" e) as [t|] eqn:E; [now apply He | reflexivity]. }
    destruct partial as [|t partial]; [reflexivity|].
    cbn [printable]. rewrite printable_app, printable_concat; auto.
  - cbn [Json.serialize append String.eqb]. intros [= <-].
    set (partial := flat_map _ props).
    assert (Hall : Forall (fun t => printable t = true) partial).
    { subst partial. induction IH as [|[k x] props Hx _ IHp]; [constructor|].
      cbn [flat_map snd] in *.
      destruct (Json.serialize "" "" x) as [t|] eqn:E; [|exact IHp].
      constructor; [|exact IHp].
      change (printable (Json.quote k ++ ":" ++ t) = true).
      rewrite !printable_app, printable_quote. cbn. now apply Hx. }
    destruct partial as [|t partial]; [reflexivity|].
    cbn [printable]. rewrite printable_app, printable_concat; auto.
Qed.

(** X20: without a list of fields, every line the compact format writes is
    a JSON text free of control characters, hence of line breaks: an item
    never spreads over two lines, whatever its strings hold. *)
Theorem outputCompact_lines_unbroken {W : Type} (data : value) (options : RenderOptions)
    (st : State W) :
  fields options = None ->
  outputCompact data options st
  = (Normal tt, with_events st (map (fun item => Log [json_arg item 0]) (as_items data)))
  /\ forall item line,
       In item (as_items data) -> json_arg item 0 = Val (VStr line) ->
       printable line = true.
Proof.
  intros Hfields. split.
  - unfold outputCompact. rewrite Hfields.
    apply (for_each_lines (fun item => [json_arg item 0])).
  - intros item line _. unfold json_arg, Json.stringify.
    change (Json.blanks (Z.to_nat (Z.min 0 10))) with "".
    destruct (Json.serialize "" "" item) as [s|] eqn:E; [|discriminate].
    intros [= <-]. exact (serialize_printable item s E).
Qed.

Lemma outputCompact_lines_unbroken_witness :
  outputCompact (VStr ("two" ++ Json.nl ++ "lines")) (plain_options (VStr "compact"))
    (state0 tt)
  = (Normal tt,
     with_events (state0 tt) [Log [Val (VStr (dquote ++ "two\nlines" ++ dquote))]]).
Proof.
  exact (proj1 (outputCompact_lines_unbroken (VStr ("two" ++ Json.nl ++ "lines"))
                  (plain_options (VStr "compact")) (state0 tt) eq_refl)).
Defined.

(** ** JSON text with any indentation is read back *)

Section json_indented.

Lemma blank_app (a b : string) : blank (a ++ b) = blank a && blank b.
Proof. induction a as [|c a IH]; simpl; [reflexivity | now rewrite IH, andb_assoc]. Qed.

Lemma blank_blanks (n : nat) : blank (Json.blanks n) = true.
Proof. induction n as [|n IH]; [reflexivity | exact IH]. Qed.

Lemma skip_ws_blank (w x : string) :
  blank w = true -> Json.skip_ws (w ++ x) = Json.skip_ws x.
Proof.
  induction w as [|c w IH]; [reflexivity|]. cbn [blank append Json.skip_ws].
  intros H. apply andb_prop in H. destruct H as [Hc Hw]. rewrite Hc. now apply IH.
Qed.

Lemma read_value_blank (fuel : nat) (w x : string) :
  blank w = true -> Json.read_value fuel (w ++ x) = Json.read_value fuel x.
Proof.
  intros Hw. destruct fuel as [|fuel]; [reflexivity|].
  cbn [Json.read_value]. now rewrite (skip_ws_blank w x Hw).
Qed.

Lemma read_elements_blank (fuel : nat) (w x : string) :
  blank w = true -> Json.read_elements fuel (w ++ x) = Json.read_elements fuel x.
Proof.
  intros Hw. destruct fuel as [|fuel]; [reflexivity|].
  cbn [Json.read_elements]. now rewrite (read_value_blank fuel w x Hw).
Qed.

Lemma read_members_blank (fuel : nat) (w x : string) :
  blank w = true -> Json.read_members fuel (w ++ x) = Json.read_members fuel x.
Proof.
  intros Hw. destruct fuel as [|fuel]; [reflexivity|].
  cbn [Json.read_members]. now rewrite (skip_ws_blank w x Hw).
Qed.

Lemma ws_delimits (c : ascii) (r : string) :
  Json.is_ws c = true -> delimited (String c r).
Proof.
  destruct c as [[|] [|] [|] [|] [|] [|] [|] [|]]; intros H;
    try discriminate H; simpl; repeat split; discriminate.
Qed.

Lemma delimited_blank (w : string) (c : ascii) (rest : string) :
  blank w = true -> delimited (String c rest) -> delimited (w ++ String c rest).
Proof.
  destruct w as [|a w]; [auto|]. cbn [blank append]. intros H _.
  apply andb_prop in H. apply ws_delimits. tauto.
Qed.

Lemma denotes_text (v : value) : is_json v -> denotes (text v) v.
Proof.
  intros Hjson. split; [apply size_text|].
  split; [apply text_head | now apply read_value_text].
Qed.

Lemma concat_cons2 (sep x y : string) (l : list string) :
  String.concat sep (x :: y :: l) = x ++ sep ++ String.concat sep (y :: l).
Proof. reflexivity. Qed.

Lemma read_elements_spaced (w1 w2 : string) (texts : list string) (items : list value) :
  blank w1 = true -> blank w2 = true ->
  Forall2 denotes texts items -> items <> [] ->
  forall fuel rest,
    (fold_right (fun x n => S (size x + n)) O items <= fuel)%nat ->
    Json.read_elements fuel (String.concat ("," ++ w1) texts ++ w2 ++ String "]" rest)
    = Some (items, rest).
Proof.
  intros Hw1 Hw2. induction 1 as [|t x ts xs Hx Hall IH]; [congruence|].
  intros _ fuel rest Hfuel. destruct Hx as (_ & _ & Hx).
  cbn [fold_right] in Hfuel. destruct fuel as [|fuel]; [lia|].
  cbn [Json.read_elements]. destruct Hall as [|t' x' ts' xs' Hx' Hall].
  - cbn [String.concat].
    rewrite (Hx fuel (w2 ++ String "]" rest));
      [| lia | apply delimited_blank; [exact Hw2 | apply delimited_punct; auto]].
    rewrite (skip_ws_blank w2 _ Hw2). reflexivity.
  - rewrite concat_cons2, !append_assoc.
    change ("," ++ w1 ++ String.concat ("," ++ w1) (t' :: ts') ++ w2 ++ String "]" rest)
      with (String "," (w1 ++ String.concat ("," ++ w1) (t' :: ts') ++ w2 ++ String "]" rest)).
    rewrite (Hx fuel); [| lia | apply delimited_punct; auto].
    cbn [Json.skip_ws]. change (Json.is_ws ",") with false. cbv iota.
    change (nat_of_ascii "," =? 44)%nat with true. cbv iota.
    rewrite (read_elements_blank fuel w1 _ Hw1).
    rewrite IH; [reflexivity | discriminate | cbn [fold_right] in *; lia].
Qed.

Lemma read_member_spaced (fuel : nat) (k w3 t tail : string) :
  blank w3 = true ->
  Json.read_members (S fuel) ((Json.quote k ++ ":" ++ w3 ++ t) ++ tail)
  = match Json.read_value fuel (t ++ tail) with
    | Some (v, r3) =>
        match Json.skip_ws r3 with
        | String c' r4 =>
            if (nat_of_ascii c' =? 44)%nat then
              match Json.read_members fuel r4 with
              | Some (ms, rest) => Some ((k, v) :: ms, rest)
              | None => None
              end
            else if (nat_of_ascii c' =? 125)%nat then Some ([(k, v)], r4)
            else None
        | EmptyString => None
        end
    | None => None
    end.
Proof.
  intros Hw3. unfold Json.quote. rewrite !append_assoc.
  change (dquote ++ Json.quote_body k ++ dquote ++ ":" ++ w3 ++ t ++ tail)
    with (String "034" (Json.quote_body k ++ dquote ++ String ":" (w3 ++ t ++ tail))).
  cbn [Json.read_members Json.skip_ws].
  change (Json.is_ws "034") with false. cbv iota.
  change (nat_of_ascii "034" =? 34)%nat with true. cbv iota.
  rewrite read_string_quote_body. cbn [Json.skip_ws].
  change (Json.is_ws ":") with false. cbv iota.
  change (nat_of_ascii ":" =? 58)%nat with true. cbv iota.
  now rewrite (read_value_blank fuel w3 _ Hw3).
Qed.

Lemma read_members_spaced (w1 w2 w3 : string) (texts : list string)
    (props : list (string * value)) :
  blank w1 = true -> blank w2 = true -> blank w3 = true ->
  Forall2 (member_text w3) texts props -> props <> [] ->
  forall fuel rest,
    (fold_right (fun kv n => S (size (snd kv) + n)) O props <= fuel)%nat ->
    Json.read_members fuel (String.concat ("," ++ w1) texts ++ w2 ++ String "}" rest)
    = Some (props, rest).
Proof.
  intros Hw1 Hw2 Hw3. induction 1 as [|m [k x] ms kvs Hm Hall IH]; [congruence|].
  intros _ fuel rest Hfuel. destruct Hm as (t & -> & _ & _ & Hx). cbn [fst snd] in *.
  cbn [fold_right snd] in Hfuel. destruct fuel as [|fuel]; [lia|].
  destruct Hall as [|m' kv' ms' kvs' Hm' Hall].
  - cbn [String.concat]. rewrite (read_member_spaced fuel k w3 t _ Hw3).
    rewrite (Hx fuel (w2 ++ String "}" rest));
      [| lia | apply delimited_blank; [exact Hw2 | apply delimited_punct; auto]].
    rewrite (skip_ws_blank w2 _ Hw2). reflexivity.
  - rewrite concat_cons2. rewrite (append_assoc (Json.quote k ++ ":" ++ w3 ++ t)).
    rewrite (read_member_spaced fuel k w3 t _ Hw3). rewrite !append_assoc.
    change ("," ++ w1 ++ String.concat ("," ++ w1) (m' :: ms') ++ w2 ++ String "}" rest)
      with (String "," (w1 ++ String.concat ("," ++ w1) (m' :: ms') ++ w2 ++ String "}" rest)).
    rewrite (Hx fuel); [| lia | apply delimited_punct; auto].
    cbn [Json.skip_ws]. change (Json.is_ws ",") with false. cbv iota.
    change (nat_of_ascii "," =? 44)%nat with true. cbv iota.
    rewrite (read_members_blank fuel w1 _ Hw1).
    rewrite IH; [reflexivity | discriminate | cbn [fold_right] in *; lia].
Qed.

Lemma size_elements_spaced (sep : string) (texts : list string) (items : list value) :
  (1 <= String.length sep)%nat ->
  Forall2 denotes texts items ->
  (fold_right (fun x n => S (size x + n)) O items
   <= S (String.length (String.concat sep texts)))%nat.
Proof.
  intros Hsep. induction 1 as [|t x ts xs Hx Hall IH]; [simpl; lia|].
  destruct Hx as (Hx & _). destruct Hall as [|t' x' ts' xs' Hx' Hall].
  - cbn [fold_right String.concat]. lia.
  - rewrite concat_cons2, !length_append. cbn [fold_right] in *. lia.
Qed.

Lemma size_members_spaced (sep w3 : string) (texts : list string)
    (props : list (string * value)) :
  (1 <= String.length sep)%nat ->
  Forall2 (member_text w3) texts props ->
  (fold_right (fun kv n => S (size (snd kv) + n)) O props
   <= S (String.length (String.concat sep texts)))%nat.
Proof.
  intros Hsep. induction 1 as [|m [k x] ms kvs Hm Hall IH]; [simpl; lia|].
  destruct Hm as (t & -> & Hx & _). cbn [fst snd] in *.
  destruct Hall as [|m' kv' ms' kvs' Hm' Hall].
  - cbn [fold_right String.concat snd]. rewrite !length_append. lia.
  - rewrite concat_cons2, !length_append. cbn [fold_right snd] in *. lia.
Qed.

Lemma concat_head (sep t : string) (ts : list string) (c : ascii) (r : string) :
  t = String c r -> exists r', String.concat sep (t :: ts) = String c r'.
Proof.
  intros ->. destruct ts as [|t' ts]; [now exists r|].
  rewrite concat_cons2. now eexists.
Qed.

Lemma denotes_array (w0 w1 w2 : string) (texts : list string) (items : list value) :
  blank w0 = true -> blank w1 = true -> blank w2 = true ->
  Forall2 denotes texts items -> items <> [] ->
  denotes ("[" ++ w0 ++ String.concat ("," ++ w1) texts ++ w2 ++ "]") (VArr items).
Proof.
  intros Hw0 Hw1 Hw2 Hall Hne. split; [|split].
  - cbn [size]. rewrite !length_append.
    assert (Hsep : (1 <= String.length ("," ++ w1))%nat)
      by (rewrite length_append; change (String.length ",") with 1%nat; lia).
    pose proof (size_elements_spaced ("," ++ w1) texts items Hsep Hall).
    change (String.length "[") with 1%nat. change (String.length "]") with 1%nat. lia.
  - do 2 eexists. split; [reflexivity | split; reflexivity].
  - intros [|fuel] rest Hfuel _; [simpl in Hfuel; lia|].
    cbn [size] in Hfuel. rewrite !append_assoc.
    change ("[" ++ w0 ++ String.concat ("," ++ w1) texts ++ w2 ++ "]" ++ rest)
      with (String "[" (w0 ++ String.concat ("," ++ w1) texts ++ w2 ++ String "]" rest)).
    cbn [Json.read_value Json.skip_ws].
    change (Json.is_ws "[") with false. cbv iota zeta.
    change (nat_of_ascii "[") with 91%nat. cbn [Nat.eqb]. cbv iota.
    rewrite (skip_ws_blank w0 _ Hw0), (read_elements_blank fuel w0 _ Hw0).
    destruct Hall as [|t x ts xs Hx Hall]; [congruence|].
    destruct (proj1 (proj2 Hx)) as (c & r & E & Hws & Hc).
    destruct (concat_head ("," ++ w1) t ts c r E) as (r' & E').
    rewrite (skip_ws_head _ _ c r' E' Hws), Hc.
    rewrite (read_elements_spaced w1 w2 (t :: ts) (x :: xs) Hw1 Hw2);
      [reflexivity | now constructor | discriminate | lia].
Qed.

Lemma denotes_object (w0 w1 w2 w3 : string) (texts : list string)
    (props : list (string * value)) :
  blank w0 = true -> blank w1 = true -> blank w2 = true -> blank w3 = true ->
  NoDup (map fst props) ->
  Forall2 (member_text w3) texts props -> props <> [] ->
  denotes ("{" ++ w0 ++ String.concat ("," ++ w1) texts ++ w2 ++ "}") (VObj props).
Proof.
  intros Hw0 Hw1 Hw2 Hw3 Hnd Hall Hne. split; [|split].
  - cbn [size]. rewrite !length_append.
    assert (Hsep : (1 <= String.length ("," ++ w1))%nat)
      by (rewrite length_append; change (String.length ",") with 1%nat; lia).
    pose proof (size_members_spaced ("," ++ w1) w3 texts props Hsep Hall).
    change (String.length "{") with 1%nat. change (String.length "}") with 1%nat. lia.
  - do 2 eexists. split; [reflexivity | split; reflexivity].
  - intros [|fuel] rest Hfuel _; [simpl in Hfuel; lia|].
    cbn [size] in Hfuel. rewrite !append_assoc.
    change ("{" ++ w0 ++ String.concat ("," ++ w1) texts ++ w2 ++ "}" ++ rest)
      with (String "{" (w0 ++ String.concat ("," ++ w1) texts ++ w2 ++ String "}" rest)).
    cbn [Json.read_value Json.skip_ws].
    change (Json.is_ws "{") with false. cbv iota zeta.
    change (nat_of_ascii "{") with 123%nat. cbn [Nat.eqb]. cbv iota.
    rewrite (skip_ws_blank w0 _ Hw0), (read_members_blank fuel w0 _ Hw0).
    destruct Hall as [|m kv ms kvs Hm Hall]; [congruence|].
    assert (Hhead : exists r, m = String "034" r).
    { destruct Hm as (t & -> & _). unfold Json.quote. now eexists. }
    destruct Hhead as (r & E).
    destruct (concat_head ("," ++ w1) m ms "034" r E) as (r' & E').
    rewrite (skip_ws_head _ _ "034" r' E' eq_refl).
    change (nat_of_ascii "034" =? 125)%nat with false. cbv iota.
    rewrite (read_members_spaced w1 w2 w3 (m :: ms) (kv :: kvs) Hw1 Hw2 Hw3);
      [| now constructor | discriminate | lia].
    now rewrite (fold_define (kv :: kvs) []).
Qed.

Lemma serialize_array (gap indent : string) (items : list value) :
  Json.serialize gap indent (VArr items)
  = Some (let partial := map (fun e => match Json.serialize gap (indent ++ gap) e with
                                           | Some t => t
                                           | None => "null"
                                           end) items in
          match partial with
          | [] => "[]"
          | _ :: _ =>
              if (gap =? "")%string then "[" ++ String.concat "," partial ++ "]"
              else "[" ++ Json.nl ++ (indent ++ gap)
                   ++ String.concat ("," ++ Json.nl ++ (indent ++ gap)) partial
                   ++ Json.nl ++ indent ++ "]"
          end).
Proof. reflexivity. Qed.

Lemma serialize_object (gap indent : string) (props : list (string * value)) :
  Json.serialize gap indent (VObj props)
  = Some (let partial :=
            flat_map (fun kv => match kv with
                                | (k, x) =>
                                    match Json.serialize gap (indent ++ gap) x with
                                    | Some t =>
                                        [Json.quote k ++ ":"
                                         ++ (if (gap =? "")%string then "" else " ")
                                         ++ t]
                                    | None => []
                                    end
                                end) props in
          match partial with
          | [] => "{}"
          | _ :: _ =>
              if (gap =? "")%string then "{" ++ String.concat "," partial ++ "}"
              else "{" ++ Json.nl ++ (indent ++ gap)
                   ++ String.concat ("," ++ Json.nl ++ (indent ++ gap)) partial
                   ++ Json.nl ++ indent ++ "}"
          end).
Proof. reflexivity. Qed.

Lemma blank_nl (w : string) : blank w = true -> blank (Json.nl ++ w) = true.
Proof. intros H. exact H. Qed.

(** Whatever the gap and the indentation, [JSON.stringify] writes a text
    of the value. *)
Lemma serialize_denotes (gap : string) (v : value) :
  blank gap = true -> is_json v ->
  forall indent, blank indent = true ->
    exists s, Json.serialize gap indent v = Some s /\ denotes s v.
Proof.
  intros Hgap.
  induction v as [ | |b|n|s0|items IH|props IH] using value_ind'; intros Hjson indent Hind.
  - destruct Hjson.
  - exists (text VNull). split; [reflexivity | now apply denotes_text].
  - exists (text (VBool b)). split; [now destruct b | now apply denotes_text].
  - exists (text (VNum n)). split; [reflexivity | now apply denotes_text].
  - exists (text (VStr s0)). split; [reflexivity | now apply denotes_text].
  - rewrite serialize_array. cbv zeta.
    assert (Hin : blank (indent ++ gap) = true) by now rewrite blank_app, Hind, Hgap.
    apply is_json_array in Hjson.
    set (partial := map _ items).
    assert (Hall : Forall2 denotes partial items).
    { subst partial. induction IH as [|x xs Hx _ IHxs]; [constructor|].
      inversion Hjson as [|? ? Hjx Hjxs]; subst. cbn [map].
      destruct (Hx Hjx (indent ++ gap) Hin) as (t & -> & Ht).
      constructor; [exact Ht | now apply IHxs]. }
    clearbody partial. destruct Hall as [|t x ts xs Hx Hall].
    + exists "[]". split; [reflexivity | exact (denotes_text (VArr []) I)].
    + eexists. split; [reflexivity|].
      assert (Hall' : Forall2 denotes (t :: ts) (x :: xs)) by now constructor.
      destruct (gap =? "")%string.
      * apply (denotes_array "" "" "" (t :: ts) (x :: xs)); try reflexivity;
          [exact Hall' | discriminate].
      * match goal with |- denotes ?s _ =>
          replace s
            with ("[" ++ (Json.nl ++ (indent ++ gap))
                  ++ String.concat ("," ++ Json.nl ++ (indent ++ gap)) (t :: ts)
                  ++ (Json.nl ++ indent) ++ "]")
            by (now rewrite !append_assoc)
        end.
        apply denotes_array; try assumption; discriminate.
  - rewrite serialize_object. cbv zeta.
    assert (Hin : blank (indent ++ gap) = true) by now rewrite blank_app, Hind, Hgap.
    apply is_json_object in Hjson. destruct Hjson as [Hnd Hjson].
    set (w3 := if (gap =? "")%string then "" else " ").
    assert (Hw3 : blank w3 = true) by (subst w3; now destruct (gap =? "")%string).
    set (partial := flat_map _ props).
    assert (Hall : Forall2 (member_text w3) partial props).
    { subst partial. clear Hnd. induction IH as [|[k x] kvs Hx _ IHkvs]; [constructor|].
      inversion Hjson as [|? ? Hjx Hjxs]; subst. cbn [flat_map snd] in *.
      destruct (Hx Hjx (indent ++ gap) Hin) as (t & -> & Ht).
      cbn [app]. constructor; [now exists t | now apply IHkvs]. }
    clearbody partial. clearbody w3. clear IH Hjson. revert Hnd.
    destruct Hall as [|m kv ms kvs Hm Hall]; intros Hnd.
    + exists "{}". split; [reflexivity | exact (denotes_text (VObj []) (conj Hnd I))].
    + eexists. split; [reflexivity|].
      assert (Hall' : Forall2 (member_text w3) (m :: ms) (kv :: kvs)) by now constructor.
      destruct (gap =? "")%string.
      * apply (denotes_object "" "" "" w3 (m :: ms) (kv :: kvs)); try reflexivity;
          [exact Hw3 | exact Hnd | exact Hall' | discriminate].
      * match goal with |- denotes ?s _ =>
          replace s
            with ("{" ++ (Json.nl ++ (indent ++ gap))
                  ++ String.concat ("," ++ Json.nl ++ (indent ++ gap)) (m :: ms)
                  ++ (Json.nl ++ indent) ++ "}")
            by (now rewrite !append_assoc)
        end.
        apply (denotes_object _ _ _ w3); try assumption; discriminate.
Qed.

(** Reading what [JSON.stringify] wrote gives the value back, with the
    fuel [JSON.parse] takes. *)
Lemma parse_stringify (v : value) (space : Z) :
  is_json v ->
  exists s, Json.stringify v space = Some s /\ Json.parse s = Some v.
Proof.
  intros Hjson. unfold Json.stringify.
  destruct (serialize_denotes (Json.blanks (Z.to_nat (Z.min space 10))) v
              (blank_blanks _) Hjson "" eq_refl) as (s & E & Hsize & _ & Hread).
  exists s. split; [exact E|]. unfold Json.parse.
  specialize (Hread (S (String.length s)) "").
  rewrite append_empty_r in Hread. rewrite Hread; [reflexivity | lia | exact I].
Qed.

End json_indented.

Lemma outputJson_reads_back {W : Type} (data : value) (options : RenderOptions)
    (st : State W) :
  is_json data ->
  exists line,
    outputJson data options st = (Normal tt, with_events st [Log [Val (VStr line)]])
    /\ Json.parse line = Some data.
Proof.
  intros Hjson. unfold outputJson, json_arg.
  destruct (parse_stringify data
              (if truthy match pretty options with VUndefined => VBool true | p => p end
               then 2 else 0) Hjson) as (s & E & Hparse).
  exists s. split; [|exact Hparse]. now rewrite E.
Qed.



(** ** A command from end to end: [invoices get] *)



(** X23: when the provider refuses the request (or cannot be reached),
    [invoices get] renders nothing: whatever the format, the process exits
    with status 1 after one request, and beyond the spinner's two events
    everything it wrote went to the error stream. *)
Theorem invoices_get_failure_renders_nothing {W : Type}
    (respond : W -> Request -> Response * W) (cfg : Settings)
    (companyId invoiceId : string) (format : value) (e : Error) (w' : W) (st : State W) :
  truthy (getApiKey cfg) = true ->
  respond (world st) (invoice_request cfg companyId invoiceId) = (Failed e, w') ->
  (forall status data, e = HttpError status data -> nullish data = false) ->
  exists evs,
    Commands.invoices_get respond cfg companyId invoiceId format st
    = (Exited 1,
       {| world := w';
          exchanges := exchanges st ++ [(invoice_request cfg companyId invoiceId, Failed e)];
          events := events st ++ SpinnerStart "Fetching data..."
                                 :: SpinnerFail "Request failed" :: evs |})
    /\ evs <> [] /\ forallb is_err evs = true.
Proof.
  intros Hkey Hrs Hbody.
  unfold Commands.invoices_get, Single.get, Single.try_catch, createClient, requireAuth.
  unfold bind at 1 2. unfold when at 1. cbn [Single.showSpinner Single.spinnerText Single.no_options].
  unfold emit at 1. cbv beta iota.
  unfold bind, http_get, ret. cbn [nullish].
  rewrite Hkey. cbn [negb world exchanges events]. cbv beta iota.
  fold (client_of cfg).
  change {| client := client_of cfg;
            endpoint := "/companies/" ++ companyId ++ "/data/invoices/" ++ invoiceId;
            params := Object_entries (VObj []) |}
    with (invoice_request cfg companyId invoiceId).
  rewrite Hrs. cbv beta iota.
  unfold when, emit. cbv beta iota. cbn [world exchanges events].
  match goal with |- context [handleApiError e ?s] =>
    destruct (handleApiError_report e s Hbody) as (evs & -> & Hne & Herr)
  end.
  exists evs. split; [|now split].
  unfold with_events. cbn [world exchanges events]. now rewrite <- !app_assoc.
Qed.

Lemma invoices_get_failure_renders_nothing_witness :
  exists evs,
    Commands.invoices_get (always (Failed (HttpError 404 (VObj [])))) settings0 "c1" "7"
      (VStr "json") (state0 tt)
    = (Exited 1,
       {| world := tt;
          exchanges := [(invoice_request settings0 "c1" "7", Failed (HttpError 404 (VObj [])))];
          events := SpinnerStart "Fetching data..." :: SpinnerFail "Request failed" :: evs |})
    /\ evs <> [] /\ forallb is_err evs = true.
Proof.
  refine (invoices_get_failure_renders_nothing (always (Failed (HttpError 404 (VObj []))))
            settings0 "c1" "7" (VStr "json") (HttpError 404 (VObj [])) tt (state0 tt)
            eq_refl eq_refl _).
  intros status data [= <- <-]. reflexivity.
Defined.
